(** * Backtesting engine of the trading-strategy simulator

    A shallow embedding of [server/services/simulation.ts]
    (the condition evaluator, the rule-set matchers [shouldBuy] and
    [shouldSell], and [runSimulation] with its day loop, end-of-run
    finalization and metrics block), followed by the properties the
    specification states about it.

    Conventions of the embedding.

    - A JavaScript [number] is a rational ([Q]): arithmetic is exact, and the
      rounding of the source's binary64 arithmetic is not modelled.  A
      property that holds of the rationals only is stated as such; the
      module [Binary64] evaluates the sizing of a position and the percent
      change of an exit rule on doubles, to show what the rounding changes.
      [NaN] and the infinities ([num]) are kept where the source compares the
      result of a division or of a coercion (the operands of the rule
      comparisons) and where it stores the [Infinity] sentinel
      ([profitFactor]).  The portfolio and its metrics ([cash], [quantity],
      [equity], [pnl], the percentages, the drawdowns) stay in [Q], where a
      quotient is the exact quotient; the statements that depend on such a
      quotient assume that its divisor is not zero (strictly positive
      closes, strictly positive initial capital).
    - A value of type [any] is a [jsval] (the JSON values plus [undefined]);
      an object is the list of its own properties, each name once, none of
      them a function.  Converting such a value to a number goes through
      [ToPrimitive], which throws on an object whose own [toString] hides
      the inherited method.
    - A JavaScript exception is the [Throw] outcome of a [result].
    - Objects that the source compares by reference (the trades held in
      [positions]) carry an object identity [oid], allocated when the
      object literal is evaluated. *)

From Stdlib Require Import String Ascii.
From Stdlib Require Import QArith Qround Qminmax Qabs ZArith Lia Lqa Bool List.
From Stdlib Require Import OrdersEx.
From Stdlib Require PrimFloat FloatOps SpecFloat Uint63.
Import ListNotations.

Local Open Scope Q_scope.

(** ** JavaScript values *)

Set Warnings "-register-all".
Set Warnings "-inexact-float".

Inductive jsval : Type :=
| JUndefined
| JNull
| JBool (b : bool)
| JNum (q : Q)
| JStr (s : string)
| JArr (items : list jsval)
| JObj (props : list (string * jsval)).

(** The numbers a comparison can meet: a finite value, an infinity or NaN.
    The sign of zero is not modelled. *)
Inductive num : Type :=
| NaN
| NegInf
| PosInf
| Fin (q : Q).

(** Outcome of a computation that may throw. *)
Inductive exn : Type := TypeError.

Inductive result (A : Type) : Type :=
| Ok (a : A)
| Throw (e : exn).
Arguments Ok {A} a.
Arguments Throw {A} e.

Definition bind {A B : Type} (r : result A) (k : A -> result B) : result B :=
  match r with
  | Ok a => k a
  | Throw e => Throw e
  end.

Notation "x <- r ;; k" := (bind r (fun x => k))
  (at level 61, r at next level, right associativity).

(** [ToBoolean]. *)
Definition truthy (v : jsval) : bool :=
  match v with
  | JUndefined | JNull => false
  | JBool b => b
  | JNum q => negb (Qeq_bool q 0)
  | JStr s => negb (String.eqb s EmptyString)
  | JArr _ | JObj _ => true
  end.

Fixpoint lookup (k : string) (props : list (string * jsval)) : jsval :=
  match props with
  | [] => JUndefined
  | (k', v) :: rest => if String.eqb k k' then v else lookup k rest
  end.

(** [v.k] for a receiver that is neither [null] nor [undefined]: an own
    property of an object, [undefined] otherwise (none of the property names
    read by the engine exists on a primitive, an array or a prototype). *)
Definition field (v : jsval) (k : string) : jsval :=
  match v with
  | JObj props => lookup k props
  | _ => JUndefined
  end.

(** [v.k] in general: reading a property of [null] or [undefined] throws. *)
Definition getProp (v : jsval) (k : string) : result jsval :=
  match v with
  | JUndefined | JNull => Throw TypeError
  | _ => Ok (field v k)
  end.

(** [Array.isArray(v)] and the elements of an array. *)
Definition isArray (v : jsval) : bool :=
  match v with
  | JArr _ => true
  | _ => false
  end.

Definition elements (v : jsval) : list jsval :=
  match v with
  | JArr items => items
  | _ => []
  end.

(** [v === 'text']. *)
Definition is_str (v : jsval) (text : string) : bool :=
  match v with
  | JStr s => String.eqb s text
  | _ => false
  end.

(** ** Numbers with NaN and infinities *)

Definition Qlt_bool (x y : Q) : bool := negb (Qle_bool y x).

(** [a / b] on finite operands. *)
Definition js_div (a b : Q) : num :=
  if Qeq_bool b 0 then
    if Qeq_bool a 0 then NaN
    else if Qlt_bool 0 a then PosInf else NegInf
  else Fin (a / b).

(** [x * 100]. *)
Definition times100 (x : num) : num :=
  match x with
  | Fin q => Fin (q * 100)
  | other => other
  end.

(** Unary minus. *)
Definition num_neg (x : num) : num :=
  match x with
  | NaN => NaN
  | NegInf => PosInf
  | PosInf => NegInf
  | Fin q => Fin (- q)
  end.

(** [x < y]; false as soon as an operand is NaN. *)
Definition num_lt (x y : num) : bool :=
  match x, y with
  | NaN, _ | _, NaN => false
  | _, NegInf => false
  | NegInf, _ => true
  | PosInf, _ => false
  | Fin _, PosInf => true
  | Fin a, Fin b => Qlt_bool a b
  end.

(** [x <= y]; false as soon as an operand is NaN. *)
Definition num_le (x y : num) : bool :=
  match x, y with
  | NaN, _ | _, NaN => false
  | NegInf, _ => true
  | _, PosInf => true
  | _, NegInf => false
  | PosInf, _ => false
  | Fin a, Fin b => Qle_bool a b
  end.

Definition num_gt (x y : num) : bool := num_lt y x.
Definition num_ge (x y : num) : bool := num_le y x.

(** ** Market data and trades *)

Record PriceData : Type := mkPriceData {
  date : string;
  open : Q;
  high : Q;
  close : Q;
  low : Q;
  volume : Q
}.

Inductive TradeStatus : Type := StatusOpen | StatusClosed.

Record Trade : Type := mkTrade {
  symbol : string;
  entryDate : string;
  entryPrice : Q;
  exitDate : option string;
  exitPrice : option Q;
  quantity : Z;
  pnl : option Q;
  pnlPercentage : option Q;
  status : TradeStatus;
  oid : nat
}.

Definition is_closed (t : Trade) : bool :=
  match status t with
  | StatusClosed => true
  | StatusOpen => false
  end.

(** A rule set ([Record<string, any>]) is read through its [conditions]
    property only; an absent property is [JUndefined]. *)
Record RuleSet : Type := mkRuleSet { conditions : jsval }.

Record SimulationConfig : Type := mkSimulationConfig {
  startDate : string;
  endDate : string;
  initialCapital : Q;
  symbols : list string;
  maxPositions : Q;
  positionSize : Q
}.

Record Strategy : Type := mkStrategy {
  scannerConfig : RuleSet;
  buyConfig : RuleSet;
  sellConfig : RuleSet;
  simulationConfig : SimulationConfig
}.

Record EquityPoint : Type := mkEquityPoint {
  point_date : string;
  equity : Q
}.

Record DrawdownPoint : Type := mkDrawdownPoint {
  drawdown_date : string;
  drawdown : Q
}.

Record Metrics : Type := mkMetrics {
  maxDrawdown : Q;
  averageTrade : Q;
  profitFactor : num;
  totalTrades : Z;
  winningTrades : Z;
  losingTrades : Z
}.

Record SimulationResults : Type := mkSimulationResults {
  totalPnl : Q;
  totalPnlPercentage : Q;
  winRate : Q;
  trades : list Trade;
  equityCurve : list EquityPoint;
  drawdowns : list DrawdownPoint;
  metrics : Metrics
}.

(** The local variables of [runSimulation] that the day loop updates.
    [st_nextOid] counts the trade objects created so far. *)
Record LoopState : Type := mkLoopState {
  st_cash : Q;
  st_positions : list Trade;
  st_allTrades : list Trade;
  st_equityCurve : list EquityPoint;
  st_nextOid : nat
}.

(** ** Arrays of dates *)

(** The order of the default [sort()] on strings (code units, left to
    right). *)
Definition date_leb (a b : string) : bool :=
  match String_as_OT.compare a b with
  | Gt => false
  | _ => true
  end.

Fixpoint insert (d : string) (sorted : list string) : list string :=
  match sorted with
  | [] => [d]
  | x :: rest => if date_leb d x then d :: sorted else x :: insert d rest
  end.

(** [array.sort()]. *)
Fixpoint sort (array : list string) : list string :=
  match array with
  | [] => []
  | d :: rest => insert d (sort rest)
  end.

(** Strictly ascending dates. *)
Fixpoint ascendingDates (dates : list string) : bool :=
  match dates with
  | a :: (b :: _) as rest => negb (date_leb b a) && ascendingDates rest
  | _ => true
  end.

(** [self.indexOf(x)], [None] standing for -1. *)
Fixpoint indexOf (x : string) (self : list string) : option nat :=
  match self with
  | [] => None
  | y :: rest =>
      if String.eqb y x then Some 0%nat
      else option_map S (indexOf x rest)
  end.

(** [array.filter((x, index) => keep x index)], the array starting at
    position [index]. *)
Fixpoint filterFrom {A : Type} (keep : A -> nat -> bool) (index : nat)
    (array : list A) : list A :=
  match array with
  | [] => []
  | x :: rest =>
      if keep x index then x :: filterFrom keep (S index) rest
      else filterFrom keep (S index) rest
  end.

(** [self.filter((x, index, self) => self.indexOf(x) === index)]. *)
Definition firstOccurrences (self : list string) : list string :=
  filterFrom
    (fun x index =>
       match indexOf x self with
       | Some j => (j =? index)%nat
       | None => false
       end)
    0%nat self.

(** [array.find(data => data.date === d)]. *)
Definition findBar (series : list PriceData) (d : string) : option PriceData :=
  find (fun data => String.eqb (date data) d) series.

(** [array[array.length - 1]], [None] standing for [undefined]. *)
Fixpoint lastElement {A : Type} (array : list A) : option A :=
  match array with
  | [] => None
  | [x] => Some x
  | _ :: rest => lastElement rest
  end.



(** [picked] holds elements of [all], in the order of [all]. *)
Inductive subsequence {A : Type} : list A -> list A -> Prop :=
| subsequence_nil : subsequence [] []
| subsequence_skip (x : A) (picked all : list A) :
    subsequence picked all -> subsequence picked (x :: all)
| subsequence_take (x : A) (picked all : list A) :
    subsequence picked all -> subsequence (x :: picked) (x :: all).

(** The trade objects in [positions] are pairwise distinct, and older than
    the next one to be created. *)
Definition identitiesDistinct (st : LoopState) : Prop :=
  NoDup (map oid (st_positions st))
  /\ forall p, In p (st_positions st) -> (oid p < st_nextOid st)%nat.



(** [k] is an own property of the object. *)
Definition hasOwn (k : string) (props : list (string * jsval)) : bool :=
  existsb (fun p => String.eqb k (fst p)) props.

(** [ToPrimitive] returns on [v].  A primitive is its own result.  A plain
    object inherits [valueOf], which returns the object itself, and
    [toString], which returns text: the conversion fails exactly when an own
    property named [toString] hides the inherited method, a value of type
    [any] holding no function.  An array inherits a [toString] that joins
    the texts of its elements, [null] and [undefined] giving the empty text
    and every other element going through [ToPrimitive] in its turn. *)
Fixpoint convertible (v : jsval) : bool :=
  match v with
  | JObj props => negb (hasOwn "toString" props)
  | JArr items => forallb convertible items
  | _ => true
  end.

(** What the engine takes from outside: the parts of ECMAScript's [ToNumber]
    that go through text (the numeric value of a string, and the text of a
    convertible array, [Array.prototype.join]), and the price series provider
    [getHistoricalData], a function of the symbol and of the two ends of the
    date range. *)
Class Environment : Type := {
  StringToNumber : string -> num;
  ArrayToString : list jsval -> string;
  getHistoricalData : string -> string -> string -> list PriceData
}.

Section Engine.

Context {env : Environment}.

(** [ToNumber], as the relational operators and the unary minus apply it
    to an operand: through [ToPrimitive], which throws a [TypeError] on a
    value that is not [convertible]; the text of a plain object is not
    numeric. *)
Definition ToNumber (v : jsval) : result num :=
  if convertible v then
    Ok match v with
       | JUndefined => NaN
       | JNull => Fin 0
       | JBool true => Fin 1
       | JBool false => Fin 0
       | JNum q => Fin q
       | JStr s => StringToNumber s
       | JArr items => StringToNumber (ArrayToString items)
       | JObj _ => NaN
       end
  else Throw TypeError.

(** [actual === value]: no coercion, so only a number can be equal. *)
Definition strict_eq (actual : num) (value : jsval) : bool :=
  match actual, value with
  | Fin a, JNum b => Qeq_bool a b
  | _, _ => false
  end.

(** The second [switch] of [evaluateCondition]: the four relational
    operators convert [value], the strict equality does not. *)
Definition applyOperator (operator : jsval) (actualValue : num) (value : jsval)
    : result bool :=
  if is_str operator ">" then
    n <- ToNumber value ;; Ok (num_gt actualValue n)
  else if is_str operator "<" then
    n <- ToNumber value ;; Ok (num_lt actualValue n)
  else if is_str operator ">=" then
    n <- ToNumber value ;; Ok (num_ge actualValue n)
  else if is_str operator "<=" then
    n <- ToNumber value ;; Ok (num_le actualValue n)
  else if is_str operator "==" then Ok (strict_eq actualValue value)
  else Ok false.

(** [((a - b) / b) * 100]. *)
Definition percentChange (a b : Q) : num := times100 (js_div (a - b) b).

Definition is_undefined (v : jsval) : bool :=
  match v with
  | JUndefined => true
  | _ => false
  end.

(** The guard that opens [evaluateCondition]. *)
Definition malformed (condition : jsval) : bool :=
  negb (truthy condition)
  || negb (truthy (field condition "indicator"))
  || negb (truthy (field condition "operator"))
  || is_undefined (field condition "value").

Definition evaluateCondition (condition : jsval) (priceData : PriceData)
    (previousPriceData : option PriceData) : result bool :=
  if malformed condition then Ok false
  else
    let indicator := field condition "indicator" in
    let operator := field condition "operator" in
    let value := field condition "value" in
    if is_str indicator "price" then
      applyOperator operator (Fin (close priceData)) value
    else if is_str indicator "volume" then
      applyOperator operator (Fin (volume priceData)) value
    else if is_str indicator "priceChange" then
      match previousPriceData with
      | None => Ok false
      | Some prev =>
          applyOperator operator
            (percentChange (close priceData) (close prev)) value
      end
    else Ok false.

(** [array.every(callback)] for a callback that may throw: stops at the
    first element for which the callback returns false. *)
Fixpoint every (callback : jsval -> result bool) (array : list jsval) : result bool :=
  match array with
  | [] => Ok true
  | x :: rest =>
      b <- callback x ;;
      if b then every callback rest else Ok false
  end.

Definition noConditions (config : RuleSet) : bool :=
  negb (truthy (conditions config))
  || negb (isArray (conditions config))
  || (length (elements (conditions config)) =? 0)%nat.

Definition shouldBuy (buyConfig : RuleSet) (priceData : PriceData)
    (previousPriceData : option PriceData) : result bool :=
  if noConditions buyConfig then Ok false
  else
    every (fun condition => evaluateCondition condition priceData previousPriceData)
      (elements (conditions buyConfig)).

(** [array.some(callback)] for a callback that may throw: stops at the first
    element for which the callback returns true. *)
Fixpoint some (callback : jsval -> result bool) (array : list jsval) : result bool :=
  match array with
  | [] => Ok false
  | x :: rest =>
      b <- callback x ;;
      if b then Ok true else some callback rest
  end.

(** The callback of [shouldSell]. *)
Definition sellConditionMet (priceData : PriceData)
    (previousPriceData : option PriceData) (trade : Trade) (condition : jsval) : result bool :=
  type <- getProp condition "type" ;;
  if is_str type "stopLoss" then
    let currentLoss := percentChange (close priceData) (entryPrice trade) in
    value <- ToNumber (field condition "value") ;;
    Ok (num_le currentLoss (num_neg value))
  else if is_str type "takeProfit" then
    let currentProfit := percentChange (close priceData) (entryPrice trade) in
    value <- ToNumber (field condition "value") ;;
    Ok (num_ge currentProfit value)
  else evaluateCondition condition priceData previousPriceData.

Definition shouldSell (sellConfig : RuleSet) (priceData : PriceData)
    (previousPriceData : option PriceData) (trade : option Trade) : result bool :=
  if noConditions sellConfig then Ok false
  else
    match trade with
    | None => Ok false
    | Some t =>
        if is_closed t then Ok false
        else some (sellConditionMet priceData previousPriceData t)
               (elements (conditions sellConfig))
    end.

(** The specification's reading of one sell condition, to be compared with
    [sellConditionMet]: a stop loss, a take profit, or else the generic
    evaluator. *)
Definition sellFires (priceData : PriceData) (previousPriceData : option PriceData)
    (trade : Trade) (condition : jsval) : result bool :=
  if is_str (field condition "type") "stopLoss" then
    value <- ToNumber (field condition "value") ;;
    Ok (num_le (percentChange (close priceData) (entryPrice trade)) (num_neg value))
  else if is_str (field condition "type") "takeProfit" then
    value <- ToNumber (field condition "value") ;;
    Ok (num_ge (percentChange (close priceData) (entryPrice trade)) value)
  else evaluateCondition condition priceData previousPriceData.

(** [null] and [undefined], the values whose properties cannot be read. *)
Definition isNullish (v : jsval) : bool :=
  match v with
  | JUndefined | JNull => true
  | _ => false
  end.

(** Every condition of the rule set has a [value] that the relational
    operators can convert. *)
Definition valuesConvertible (config : RuleSet) : bool :=
  forallb (fun condition => convertible (field condition "value"))
    (elements (conditions config)).

(** ** The simulation *)

Section Run.

Variable strategy : Strategy.

Let config : SimulationConfig := simulationConfig strategy.

(** [historicalDataBySymbol[symbol]], for a configured symbol. *)
Definition historicalDataBySymbol (symbol : string) : list PriceData :=
  getHistoricalData symbol (startDate config) (endDate config).

(** [Object.values(historicalDataBySymbol)]: one series per distinct key, in
    the order the keys were first assigned (keys that read as array indices
    would come first; [allDates] sorts the dates anyway).  Every configured
    symbol is taken to become a key of the object, which holds of every name
    but [__proto__]: assigning that one sets the prototype of the object, so
    that its series can still be read but is not among the values. *)
Definition seriesOfAllSymbols : list (list PriceData) :=
  map historicalDataBySymbol (firstOccurrences (symbols config)).

Definition allDates : list string :=
  sort (firstOccurrences (map date (concat seriesOfAllSymbols))).

(** The bar of the previous trading day: looked up only when
    [previousDate] is truthy. *)
Definition previousBar (symbol : string) (previousDate : option string)
    : option PriceData :=
  match previousDate with
  | None => None
  | Some d =>
      if String.eqb d EmptyString then None
      else findBar (historicalDataBySymbol symbol) d
  end.

(** A position closed at [price] on [day]. *)
Definition closeTrade (position : Trade) (day : string) (price : Q) : Trade :=
  {| symbol := symbol position;
     entryDate := entryDate position;
     entryPrice := entryPrice position;
     exitDate := Some day;
     exitPrice := Some price;
     quantity := quantity position;
     pnl := Some ((price - entryPrice position) * inject_Z (quantity position));
     pnlPercentage :=
       Some (((price - entryPrice position) / entryPrice position) * 100);
     status := StatusClosed;
     oid := oid position |}.

(** [p !== position]. *)
Definition otherObject (position p : Trade) : bool :=
  negb (oid p =? oid position)%nat.

(** One iteration of the loop over [openPositions] (sell signals). *)
Definition sellStep (currentDate : string) (previousDate : option string)
    (st : LoopState) (position : Trade) : result LoopState :=
  if is_closed position then Ok st
  else
    match findBar (historicalDataBySymbol (symbol position)) currentDate with
    | None => Ok st
    | Some currentPriceData =>
        let previousPriceData := previousBar (symbol position) previousDate in
        sell <- shouldSell (sellConfig strategy) currentPriceData
                  previousPriceData (Some position) ;;
        if sell then
          let closed := closeTrade position currentDate (close currentPriceData) in
          Ok {| st_cash :=
                  st_cash st + close currentPriceData * inject_Z (quantity position);
                st_positions := filter (otherObject position) (st_positions st);
                st_allTrades := st_allTrades st ++ [closed];
                st_equityCurve := st_equityCurve st;
                st_nextOid := st_nextOid st |}
        else Ok st
    end.

Fixpoint sellLoop (currentDate : string) (previousDate : option string)
    (openPositions : list Trade) (st : LoopState) : result LoopState :=
  match openPositions with
  | [] => Ok st
  | position :: rest =>
      st' <- sellStep currentDate previousDate st position ;;
      sellLoop currentDate previousDate rest st'
  end.

(** The scanner test written inline in the loop over the symbols: calling
    [every] on a truthy value that is not an array throws. *)
Definition passesScanner (currentPriceData : PriceData)
    (previousPriceData : option PriceData) : result bool :=
  let conds := conditions (scannerConfig strategy) in
  if negb (truthy conds) then Ok true
  else
    match conds with
    | JArr items =>
        every
          (fun condition =>
             evaluateCondition condition currentPriceData previousPriceData)
          items
    | _ => Throw TypeError
    end.

Definition positionValue : Q :=
  (positionSize config / 100) * initialCapital config.

(** [positions.length >= maxPositions]. *)
Definition maxPositionsReached (st : LoopState) : bool :=
  Qle_bool (maxPositions config)
    (inject_Z (Z.of_nat (List.length (st_positions st)))).

(** One iteration of the loop over the symbols (buy signals), after its
    [break] test.  The quotient [positionValue / close] is the rational one:
    at a close of 0, where the source divides to an infinity or to NaN and
    goes on with it, the embedding does not follow (the statements about
    quantities and pnl assume strictly positive closes). *)
Definition buyStep (currentDate : string) (previousDate : option string)
    (st : LoopState) (symbol : string) : result LoopState :=
  match findBar (historicalDataBySymbol symbol) currentDate with
  | None => Ok st
  | Some currentPriceData =>
      let previousPriceData := previousBar symbol previousDate in
      passes <- passesScanner currentPriceData previousPriceData ;;
      buy <- (if passes
              then shouldBuy (buyConfig strategy) currentPriceData previousPriceData
              else Ok false) ;;
      if buy
      then
        if Qlt_bool (st_cash st) positionValue then Ok st
        else
          let quantity := Qfloor (positionValue / close currentPriceData) in
          if (quantity =? 0)%Z then Ok st
          else
            let newTrade :=
              {| symbol := symbol;
                 entryDate := currentDate;
                 entryPrice := close currentPriceData;
                 exitDate := None;
                 exitPrice := None;
                 quantity := quantity;
                 pnl := None;
                 pnlPercentage := None;
                 status := StatusOpen;
                 oid := st_nextOid st |} in
            Ok {| st_cash :=
                    st_cash st - entryPrice newTrade * inject_Z (quantity);
                  st_positions := st_positions st ++ [newTrade];
                  st_allTrades := st_allTrades st;
                  st_equityCurve := st_equityCurve st;
                  st_nextOid := S (st_nextOid st) |}
      else Ok st
  end.

Fixpoint buyLoop (currentDate : string) (previousDate : option string)
    (remaining : list string) (st : LoopState) : result LoopState :=
  match remaining with
  | [] => Ok st
  | symbol :: rest =>
      if maxPositionsReached st then Ok st
      else
        st' <- buyStep currentDate previousDate st symbol ;;
        buyLoop currentDate previousDate rest st'
  end.

(** [positions.reduce(..., cash)]: cash plus the open positions marked at
    the day's close, a position without a bar that day counting for 0. *)
Definition portfolioValue (currentDate : string) (st : LoopState) : Q :=
  fold_left
    (fun total position =>
       match findBar (historicalDataBySymbol (symbol position)) currentDate with
       | Some symbolPriceData =>
           total + close symbolPriceData * inject_Z (quantity position)
       | None => total
       end)
    (st_positions st) (st_cash st).

Definition recordEquity (currentDate : string) (st : LoopState) : LoopState :=
  {| st_cash := st_cash st;
     st_positions := st_positions st;
     st_allTrades := st_allTrades st;
     st_equityCurve :=
       st_equityCurve st ++ [mkEquityPoint currentDate (portfolioValue currentDate st)];
     st_nextOid := st_nextOid st |}.

(** The body of the day loop. *)
Definition simulateDay (currentDate : string) (previousDate : option string)
    (st : LoopState) : result LoopState :=
  st1 <- sellLoop currentDate previousDate (st_positions st) st ;;
  st2 <- buyLoop currentDate previousDate (symbols config) st1 ;;
  Ok (recordEquity currentDate st2).

(** The day loop over [days], [previousDate] being the day before the first
    of them ([None] at index 0). *)
Fixpoint dayLoop (previousDate : option string) (days : list string)
    (st : LoopState) : result LoopState :=
  match days with
  | [] => Ok st
  | currentDate :: rest =>
      st' <- simulateDay currentDate previousDate st ;;
      dayLoop (Some currentDate) rest st'
  end.

Definition initialState : LoopState :=
  {| st_cash := initialCapital config;
     st_positions := [];
     st_allTrades := [];
     st_equityCurve := [];
     st_nextOid := 0%nat |}.

(** The loop that closes the remaining positions at the last bar of their
    series. *)
Fixpoint closeRemaining (remaining : list Trade) (allTrades : list Trade)
    : result (list Trade) :=
  match remaining with
  | [] => Ok allTrades
  | position :: rest =>
      match lastElement (historicalDataBySymbol (symbol position)) with
      | None => Throw TypeError
      | Some lastPriceData =>
          closeRemaining rest
            (allTrades ++
               [closeTrade position (date lastPriceData) (close lastPriceData)])
      end
  end.

(** The states of the day loop.  Each constructor is one iteration of one of
    its inner loops, for any day: an iteration of the loop over the open
    positions, an iteration of the loop over the symbols that has passed the
    [break] test, and the equity snapshot that ends a day. *)
Inductive reachable : LoopState -> Prop :=
| reach_initial : reachable initialState
| reach_sell (st st' : LoopState) (currentDate : string)
    (previousDate : option string) (position : Trade) :
    reachable st ->
    In position (st_positions st) ->
    sellStep currentDate previousDate st position = Ok st' ->
    reachable st'
| reach_buy (st st' : LoopState) (currentDate : string)
    (previousDate : option string) (symbol : string) :
    reachable st ->
    In symbol (symbols config) ->
    maxPositionsReached st = false ->
    buyStep currentDate previousDate st symbol = Ok st' ->
    reachable st'
| reach_equity (st : LoopState) (currentDate : string) :
    reachable st ->
    reachable (recordEquity currentDate st).



(** A trade as the buy loop creates it. *)
Definition asOpened (p : Trade) : Prop :=
  In (symbol p) (symbols config)
  /\ status p = StatusOpen
  /\ pnl p = None
  /\ (exists bar, In bar (historicalDataBySymbol (symbol p)) /\ entryPrice p = close bar)
  /\ quantity p = Qfloor (positionValue / entryPrice p)
  /\ quantity p <> 0%Z.

(** A trade as it enters the ledger. *)
Definition asClosed (t : Trade) : Prop :=
  status t = StatusClosed
  /\ exists price,
       exitPrice t = Some price
       /\ pnl t = Some ((price - entryPrice t) * inject_Z (quantity t)).

(** Every bar of every configured symbol has a strictly positive close. *)
Definition pricesPositive : Prop :=
  forall symbol bar,
    In symbol (symbols config) ->
    In bar (historicalDataBySymbol symbol) ->
    0 < close bar.


(** The scanner's [conditions] is absent (falsy) or an array. *)
Definition scannerWellShaped : bool :=
  negb (truthy (conditions (scannerConfig strategy)))
  || isArray (conditions (scannerConfig strategy)).

(** The sell rule set has no conditions, or none of them is [null] or
    [undefined]. *)
Definition sellWellShaped : bool :=
  noConditions (sellConfig strategy)
  || forallb (fun c => negb (isNullish c)) (elements (conditions (sellConfig strategy))).

(** The buy rule set never throws: on every bar [shouldBuy] returns. *)
Definition buyReturns : Prop :=
  forall bar prev, exists b, shouldBuy (buyConfig strategy) bar prev = Ok b.

End Run.

(** ** Performance metrics *)

(** [trade.pnl || 0] and [trade.pnlPercentage || 0]. *)
Definition pnlOrZero (trade : Trade) : Q :=
  match pnl trade with
  | Some q => q
  | None => 0
  end.

Definition pnlPercentageOrZero (trade : Trade) : Q :=
  match pnlPercentage trade with
  | Some q => q
  | None => 0
  end.

(** [equityCurve[equityCurve.length - 1]?.equity || initialCapital]. *)
Definition finalCapital (initialCapital : Q) (equityCurve : list EquityPoint) : Q :=
  match lastElement equityCurve with
  | None => initialCapital
  | Some point =>
      if Qeq_bool (equity point) 0 then initialCapital else equity point
  end.

Definition isWinning (trade : Trade) : bool := Qlt_bool 0 (pnlOrZero trade).
Definition isLosing (trade : Trade) : bool := Qlt_bool (pnlOrZero trade) 0.

Definition sumPnl (l : list Trade) : Q :=
  fold_left (fun sum trade => sum + pnlOrZero trade) l 0.

Definition grossProfit (allTrades : list Trade) : Q :=
  sumPnl (filter isWinning allTrades).

Definition grossLoss (allTrades : list Trade) : Q :=
  Qabs (sumPnl (filter isLosing allTrades)).

(** The loop that fills [drawdowns], [peak] being the running peak. *)
Fixpoint drawdownLoop (peak : Q) (equityCurve : list EquityPoint)
    : list DrawdownPoint :=
  match equityCurve with
  | [] => []
  | point :: rest =>
      let peak' := if Qlt_bool peak (equity point) then equity point else peak in
      mkDrawdownPoint (point_date point) (((peak' - equity point) / peak') * 100)
        :: drawdownLoop peak' rest
  end.


(** [Math.max(...values, 0)]. *)
Definition maxWithZero (values : list Q) : Q := fold_right Qmax 0 values.

Definition computeResults (initialCapital : Q) (allTrades : list Trade)
    (equityCurve : list EquityPoint) : SimulationResults :=
  let finalCapital := finalCapital initialCapital equityCurve in
  let totalPnl := finalCapital - initialCapital in
  let totalPnlPercentage := (totalPnl / initialCapital) * 100 in
  let winningTrades := Z.of_nat (List.length (filter isWinning allTrades)) in
  let totalTrades := Z.of_nat (List.length allTrades) in
  let winRate :=
    if (0 <? totalTrades)%Z
    then (inject_Z winningTrades / inject_Z totalTrades) * 100
    else 0 in
  let drawdowns := drawdownLoop initialCapital equityCurve in
  let maxDrawdown := maxWithZero (map drawdown drawdowns) in
  let averageTrade :=
    if (0 <? totalTrades)%Z
    then fold_left (fun sum trade => sum + pnlPercentageOrZero trade) allTrades 0
         / inject_Z totalTrades
    else 0 in
  let grossProfit := grossProfit allTrades in
  let grossLoss := grossLoss allTrades in
  let profitFactor :=
    if Qlt_bool 0 grossLoss then Fin (grossProfit / grossLoss)
    else if Qlt_bool 0 grossProfit then PosInf else Fin 0 in
  {| totalPnl := totalPnl;
     totalPnlPercentage := totalPnlPercentage;
     winRate := winRate;
     trades := allTrades;
     equityCurve := equityCurve;
     drawdowns := drawdowns;
     metrics :=
       {| maxDrawdown := maxDrawdown;
          averageTrade := averageTrade;
          profitFactor := profitFactor;
          totalTrades := totalTrades;
          winningTrades := winningTrades;
          losingTrades := (totalTrades - winningTrades)%Z |} |}.

Definition runSimulation (strategy : Strategy) : result SimulationResults :=
  st <- dayLoop strategy None (allDates strategy) (initialState strategy) ;;
  allTrades <- closeRemaining strategy (st_positions st) (st_allTrades st) ;;
  Ok (computeResults (initialCapital (simulationConfig strategy)) allTrades
        (st_equityCurve st)).

End Engine.

(** The configurations the specification calls invalid: a non-positive
    initial capital, no symbol, or a position size outside (0, 100]. *)
Definition violatesInvariants (config : SimulationConfig) : bool :=
  Qle_bool (initialCapital config) 0
  || (List.length (symbols config) =? 0)%nat
  || Qle_bool (positionSize config) 0
  || Qlt_bool 100 (positionSize config).

(** ** The arithmetic of a buy and of an exit rule in binary64

    The same expressions as [positionValue], the quantity and the debit of
    [buyStep] and [percentChange], on the doubles of the source instead of
    rationals, to measure what the exact arithmetic of the embedding leaves
    out. *)

Module Binary64.

Import PrimFloat FloatOps SpecFloat.
Local Open Scope float_scope.

(** [Math.floor]: a double whose exponent is not negative is a whole
    number already. *)
Definition floor (x : float) : float :=
  match Prim2SF x with
  | S754_finite negative m e =>
      if (0 <=? e)%Z then x
      else if negative
           then - of_uint63 (Uint63.of_Z (- ((- Z.pos m) / 2 ^ (- e)))%Z)
           else of_uint63 (Uint63.of_Z (Z.pos m / 2 ^ (- e))%Z)
  | _ => x
  end.

(** [(simulationConfig.positionSize / 100) * simulationConfig.initialCapital]. *)
Definition positionValue (positionSize initialCapital : float) : float :=
  (positionSize / 100) * initialCapital.

(** [Math.floor(positionValue / currentPriceData.close)]. *)
Definition quantity (positionSize initialCapital close : float) : float :=
  floor (positionValue positionSize initialCapital / close).

(** [cash -= newTrade.entryPrice * newTrade.quantity]. *)
Definition cashAfterBuy (cash positionSize initialCapital close : float) : float :=
  cash - close * quantity positionSize initialCapital close.

(** [((priceData.close - trade.entryPrice) / trade.entryPrice) * 100]. *)
Definition percentChange (close entryPrice : float) : float :=
  ((close - entryPrice) / entryPrice) * 100.

End Binary64.

(** ** Sample inputs *)

Definition sampleBar (day : string) (price : Q) : PriceData :=
  {| date := day; open := price; high := price; close := price; low := price;
     volume := 1000000 |}.

(** A provider with two symbols: ACME trades on three days, ZETA on the first
    of them only. *)
Definition sampleSeries (symbol start finish : string) : list PriceData :=
  if String.eqb symbol "ACME" then
    [sampleBar "2024-01-01" 50; sampleBar "2024-01-02" 60; sampleBar "2024-01-03" 55]
  else if String.eqb symbol "ZETA" then
    [sampleBar "2024-01-01" 50]
  else [].

(** No sample condition holds a string or an array as its value, so the two
    text conversions are never called on the samples. *)
Definition sampleEnvironment : Environment :=
  {| StringToNumber := fun _ => NaN;
     ArrayToString := fun _ => EmptyString;
     getHistoricalData := sampleSeries |}.

Definition priceAbove (v : Q) : jsval :=
  JObj [("indicator"%string, JStr "price");
        ("operator"%string, JStr ">");
        ("value"%string, JNum v)].

Definition takeProfit (v : Q) : jsval :=
  JObj [("type"%string, JStr "takeProfit"); ("value"%string, JNum v)].

(** A condition on the price with any operator and any value. *)
Definition priceCompared (operator : string) (value : jsval) : jsval :=
  JObj [("indicator"%string, JStr "price");
        ("operator"%string, JStr operator);
        ("value"%string, value)].

(** The value [{toString: 0}]: its own [toString] is not a function. *)
Definition unconvertible : jsval := JObj [("toString"%string, JNum 0)].

Definition noRules : RuleSet := {| conditions := JUndefined |}.

Definition sampleConfig (capital : Q) (names : list string) (size : Q)
    : SimulationConfig :=
  {| startDate := "2024-01-01";
     endDate := "2024-01-03";
     initialCapital := capital;
     symbols := names;
     maxPositions := 1;
     positionSize := size |}.

(** Buys ACME above 10, takes profit at 10 percent. *)
Definition sampleStrategy : Strategy :=
  {| scannerConfig := noRules;
     buyConfig := {| conditions := JArr [priceAbove 10] |};
     sellConfig := {| conditions := JArr [takeProfit 10] |};
     simulationConfig := sampleConfig 100 ["ACME"%string] 100 |}.

(** The same without buy rules. *)
Definition idleStrategy : Strategy :=
  {| scannerConfig := noRules;
     buyConfig := noRules;
     sellConfig := {| conditions := JArr [takeProfit 10] |};
     simulationConfig := sampleConfig 100 ["ACME"%string] 100 |}.

(** Buys above 10 and never sells, over ZETA then ACME. *)
Definition holdStrategy (capital : Q) (names : list string) (size : Q) : Strategy :=
  {| scannerConfig := noRules;
     buyConfig := {| conditions := JArr [priceAbove 10] |};
     sellConfig := noRules;
     simulationConfig := sampleConfig capital names size |}.

(** Buys above 10 and never sells, over ZETA then ACME, half of the capital
    each, with [maxPositions] at one and a half. *)
Definition fractionalStrategy : Strategy :=
  {| scannerConfig := noRules;
     buyConfig := {| conditions := JArr [priceAbove 10] |};
     sellConfig := noRules;
     simulationConfig :=
       {| startDate := "2024-01-01";
          endDate := "2024-01-03";
          initialCapital := 100;
          symbols := ["ZETA"%string; "ACME"%string];
          maxPositions := 3 # 2;
          positionSize := 50 |} |}.

(** Buys ACME below 55 and takes profit at 10 percent, with a position size
    of -1000 percent. *)
Definition shortStrategy : Strategy :=
  {| scannerConfig := noRules;
     buyConfig := {| conditions := JArr [priceCompared "<" (JNum 55)] |};
     sellConfig := {| conditions := JArr [takeProfit 10] |};
     simulationConfig := sampleConfig 100 ["ACME"%string] (-1000) |}.

Definition sampleTrade : Trade :=
  {| symbol := "ACME";
     entryDate := "2024-01-01";
     entryPrice := 50;
     exitDate := None;
     exitPrice := None;
     quantity := 2;
     pnl := None;
     pnlPercentage := None;
     status := StatusOpen;
     oid := 0 |}.


(** The run of [sampleStrategy]: two ACME shares bought at 50 and sold at 60
    the next day, one share bought back at 60 and closed at 55 by the
    finalization. *)
Definition sampleFinalState : LoopState :=
  Eval vm_compute in
    match dayLoop (env := sampleEnvironment) sampleStrategy None
            (allDates (env := sampleEnvironment) sampleStrategy)
            (initialState sampleStrategy) with
    | Ok st => st
    | Throw _ => initialState sampleStrategy
    end.

Definition sampleResults : SimulationResults :=
  Eval vm_compute in
    match runSimulation (env := sampleEnvironment) sampleStrategy with
    | Ok res => res
    | Throw _ => computeResults 0 [] []
    end.


(** ** Further notions about runs *)

(** [t] is the position [p] closed at the last bar of its symbol's series. *)
Definition forcedAtLastBar {env : Environment} (strategy : Strategy)
    (p t : Trade) : Prop :=
  exists lastBar,
    lastElement (historicalDataBySymbol strategy (symbol p)) = Some lastBar
    /\ t = closeTrade p (date lastBar) (close lastBar).

(** The trade left on a trading day strictly later than the one it entered. *)
Definition exitsAfterEntry (t : Trade) : Prop :=
  exists d, exitDate t = Some d /\ String_as_OT.lt (entryDate t) d.


(** The trade entered at the close of a bar of its symbol, a configured one,
    dated its entry date. *)
Definition entersAtBar {env : Environment} (strategy : Strategy) (t : Trade) : Prop :=
  In (symbol t) (symbols (simulationConfig strategy))
  /\ exists bar,
       In bar (historicalDataBySymbol strategy (symbol t))
       /\ date bar = entryDate t
       /\ close bar = entryPrice t.

(** The trade left at the close of a bar of its symbol, dated its exit
    date. *)
Definition exitsAtBar {env : Environment} (strategy : Strategy) (t : Trade) : Prop :=
  exists bar,
    In bar (historicalDataBySymbol strategy (symbol t))
    /\ exitDate t = Some (date bar)
    /\ exitPrice t = Some (close bar).


(** ** The mock price provider ([server/services/financeApi.ts]) *)

(** What the provider takes from the date library: a [Date] at local
    midnight is the number of its day, [addDays d 1] is [d + 1] and
    [isAfter a b] is [b < a]; parsing and formatting with ['yyyy-MM-dd'] and
    [Date.prototype.getDay] are given by the library.  Date strings that do
    not parse are not modelled. *)
Class DateLibrary : Type := {
  parseDate : string -> Z;
  formatDate : Z -> string;
  getDay : Z -> Z
}.

(** The table [stockSymbols]. *)
Definition stockSymbols : list (string * Q) :=
  [("AAPL"%string, 150); ("MSFT"%string, 300); ("GOOGL"%string, 2500);
   ("AMZN"%string, 3300); ("META"%string, 300); ("TSLA"%string, 800);
   ("NVDA"%string, 700); ("JPM"%string, 160); ("V"%string, 230);
   ("WMT"%string, 140)].

(** [stockSymbols.find(s => s.symbol === symbol) || { symbol, basePrice: 100 }],
    read at [basePrice]. *)
Definition basePriceOf (symbol : string) : Q :=
  match find (fun s => String.eqb (fst s) symbol) stockSymbols with
  | Some s => snd s
  | None => 100
  end.

(** [getAvailableSymbols()]. *)
Definition getAvailableSymbols : list string := map fst stockSymbols.

(** [parseFloat(x.toFixed(2))]: the nearest multiple of 0.01, a tie going
    away from zero.  The rounding is that of the exact value: the source
    rounds the double, which lies off a decimal tie to one side or the
    other. *)
Definition toFixed2 (x : Q) : Q :=
  if Qlt_bool x 0
  then - (inject_Z (Qfloor (- x * 100 + (1 # 2))) / 100)
  else inject_Z (Qfloor (x * 100 + (1 # 2))) / 100.

(** The variables of [generatePriceData] that its loop updates; [drawn]
    counts the calls to [Math.random] so far. *)
Record Generator : Type := mkGenerator {
  currentPrice : Q;
  drawn : nat;
  data : list PriceData
}.

Section Provider.

Context {dates : DateLibrary}.

(** The successive values of [Math.random()]. *)
Variable random : nat -> Q.

(** [currentDate.getDay() !== 0 && currentDate.getDay() !== 6]. *)
Definition isWeekday (currentDate : Z) : bool :=
  negb (getDay currentDate =? 0)%Z && negb (getDay currentDate =? 6)%Z.

(** The body of the [while] loop, before [currentDate] is advanced. *)
Definition generateDay (currentDate : Z) (g : Generator) : Generator :=
  if isWeekday currentDate then
    let dailyChange := (random (drawn g) - (48 # 100)) * (4 # 100) * currentPrice g in
    let openPrice := currentPrice g in
    let closePrice := openPrice + dailyChange in
    let highPrice :=
      Qmax openPrice closePrice + random (S (drawn g)) * (1 # 100) * openPrice in
    let lowPrice :=
      Qmin openPrice closePrice - random (S (S (drawn g))) * (1 # 100) * openPrice in
    let volume :=
      inject_Z (Qfloor (random (S (S (S (drawn g)))) * 9000000)) + 1000000 in
    {| currentPrice := closePrice;
       drawn := S (S (S (S (drawn g))));
       data :=
         data g ++
           [{| date := formatDate currentDate;
               open := toFixed2 openPrice;
               high := toFixed2 highPrice;
               close := toFixed2 closePrice;
               low := toFixed2 lowPrice;
               volume := volume |}] |}
  else g.

(** [while (!isAfter(currentDate, parsedEndDate)) { ...; currentDate =
    addDays(currentDate, 1) }], with a bound on the number of iterations. *)
Fixpoint generateDays (fuel : nat) (parsedEndDate currentDate : Z) (g : Generator)
    : Generator :=
  match fuel with
  | O => g
  | S fuel' =>
      if (parsedEndDate <? currentDate)%Z then g
      else generateDays fuel' parsedEndDate (currentDate + 1)
             (generateDay currentDate g)
  end.

(** [generatePriceData]; the loop runs once per day of the range, so the
    length of the range is fuel enough. *)
Definition generatePriceData (symbol startDate endDate : string) : list PriceData :=
  let parsedStartDate := parseDate startDate in
  let parsedEndDate := parseDate endDate in
  data
    (generateDays (Z.to_nat (parsedEndDate - parsedStartDate + 1))
       parsedEndDate parsedStartDate
       {| currentPrice := basePriceOf symbol; drawn := 0; data := [] |}).

End Provider.

(** The days from [first] to [last], both included. *)
Definition daysBetween (first last : Z) : list Z :=
  map (fun i => (first + Z.of_nat i)%Z) (seq 0 (Z.to_nat (last - first + 1))).

(** Each bar after the first opens at the close of the bar before it. *)
Fixpoint opensAtPreviousClose (bars : list PriceData) : Prop :=
  match bars with
  | a :: (b :: _) as rest => open b = close a /\ opensAtPreviousClose rest
  | _ => True
  end.

(** The engine's environment when its provider is the mock one, [draws
    symbol] being the values [Math.random] returns during the call for
    [symbol] (the last such call when the symbol is listed twice: its series
    replaces the earlier one). *)
Definition mockEnvironment {dates : DateLibrary} (conversions : Environment)
    (draws : string -> nat -> Q) : Environment :=
  {| StringToNumber := @StringToNumber conversions;
     ArrayToString := @ArrayToString conversions;
     getHistoricalData :=
       fun symbol startDate endDate =>
         generatePriceData (draws symbol) symbol startDate endDate |}.

(** A bar whose low and high bracket its open and close, none negative. *)
Definition consistentBar (bar : PriceData) : Prop :=
  0 <= low bar
  /\ low bar <= open bar /\ low bar <= close bar
  /\ open bar <= high bar /\ close bar <= high bar.

(** A whole volume from 1,000,000 to 9,999,999. *)
Definition volumeInRange (bar : PriceData) : Prop :=
  exists z : Z, volume bar == inject_Z z /\ (1000000 <= z <= 9999999)%Z.

(** The values of [Math.random] lie in [0, 1). *)
Definition unitInterval (random : nat -> Q) : Prop :=
  forall n, 0 <= random n /\ random n < 1.


(** ** The simulation routes ([server/routes/strategy.ts]) *)

Inductive StrategyStatus : Type := Saved | InProgress | Completed.

(** A strategy document, as far as the simulation routes read and write it;
    [doc_results] is [None] as long as no results have been stored. *)
Record StrategyDocument : Type := mkStrategyDocument {
  doc_name : string;
  doc_strategy : Strategy;
  doc_status : StrategyStatus;
  doc_results : option SimulationResults
}.

(** The answers of [GET /:id/result]; the results of a 200 are what the
    document stores, [None] when it stores none. *)
Inductive ResultResponse : Type :=
| StrategyNotFound404
| SimulationInProgress202
| NoResults404
| Results200 (results : option SimulationResults) (status : StrategyStatus).

(** [GET /:id/result], from what [findById] returned.  [results] is a
    nested path of the schema: on a document it reads as an object even when
    nothing is stored, so that the test [!strategy.results] never holds and
    the 404 comes from the status alone. *)
Definition getResult (found : option StrategyDocument) : ResultResponse :=
  match found with
  | None => StrategyNotFound404
  | Some strategy =>
      match doc_status strategy with
      | InProgress => SimulationInProgress202
      | Saved => NoResults404
      | Completed => Results200 (doc_results strategy) Completed
      end
  end.

(** [POST /:id/simulate] up to its answer: the document is marked in
    progress and saved. *)
Definition startSimulation (strategy : StrategyDocument) : StrategyDocument :=
  {| doc_name := doc_name strategy;
     doc_strategy := doc_strategy strategy;
     doc_status := InProgress;
     doc_results := doc_results strategy |}.

(** The two continuations of the background run, from the outcome of its
    promise: [then] stores the results and marks the document completed,
    [catch] marks it saved. *)
Definition settleWith (outcome : result SimulationResults)
    (strategy : StrategyDocument) : StrategyDocument :=
  match outcome with
  | Ok results =>
      {| doc_name := doc_name strategy;
         doc_strategy := doc_strategy strategy;
         doc_status := Completed;
         doc_results := Some results |}
  | Throw _ =>
      {| doc_name := doc_name strategy;
         doc_strategy := doc_strategy strategy;
         doc_status := Saved;
         doc_results := doc_results strategy |}
  end.


(** The background run and its continuations.  The run is given
    [strategy.toObject()], taken here to carry the stored rule sets and
    configuration as they are; a rule set stored as the empty object, which
    [toObject] leaves out, is not represented by [doc_strategy]. *)
Definition settleSimulation {env : Environment} (strategy : StrategyDocument)
    : StrategyDocument :=
  settleWith (runSimulation (doc_strategy strategy)) strategy.

(** [POST /copy/:id]: the document built from the original. *)
Definition copyStrategy (original : StrategyDocument) : StrategyDocument :=
  {| doc_name := doc_name original ++ " (Copy)";
     doc_strategy := doc_strategy original;
     doc_status := Saved;
     doc_results := None |}.

(** ** The forms' validation schemas *)

(** [z.number().int()]. *)
Definition isInteger (x : Q) : bool := Qeq_bool x (inject_Z (Qfloor x)).

(** The [simulationConfig] and [name] rules of the creation form's
    [formSchema]. *)
Definition createFormAccepts (name : string) (config : SimulationConfig) : bool :=
  (3 <=? String.length name)%nat
  && Qle_bool 1000 (initialCapital config)
  && (1 <=? List.length (symbols config))%nat
  && Qle_bool 1 (maxPositions config)
  && Qle_bool 1 (positionSize config)
  && Qle_bool (positionSize config) 100.

(** The [simulationConfig] and [name] rules of the edit form's
    [formSchema]. *)
Definition editFormAccepts (name : string) (config : SimulationConfig) : bool :=
  (1 <=? String.length name)%nat
  && (String.length name <=? 100)%nat
  && Qle_bool 1 (initialCapital config)
  && Qle_bool 1 (positionSize config)
  && Qle_bool (positionSize config) 100
  && isInteger (maxPositions config)
  && Qle_bool 1 (maxPositions config).


(** ** Sample inputs for the provider *)

(** The proleptic Gregorian calendar on ['yyyy-MM-dd'] strings, days counted
    from 1970-01-01 (a Thursday). *)
Definition daysFromCivil (y m d : Z) : Z :=
  let y' := if (m <=? 2)%Z then (y - 1)%Z else y in
  let era := (y' / 400)%Z in
  let yoe := (y' - era * 400)%Z in
  let mp := if (2 <? m)%Z then (m - 3)%Z else (m + 9)%Z in
  let doy := ((153 * mp + 2) / 5 + d - 1)%Z in
  let doe := (yoe * 365 + yoe / 4 - yoe / 100 + doy)%Z in
  (era * 146097 + doe - 719468)%Z.

Definition civilFromDays (z : Z) : Z * Z * Z :=
  let z' := (z + 719468)%Z in
  let era := (z' / 146097)%Z in
  let doe := (z' - era * 146097)%Z in
  let yoe := ((doe - doe / 1460 + doe / 36524 - doe / 146096) / 365)%Z in
  let doy := (doe - (365 * yoe + yoe / 4 - yoe / 100))%Z in
  let mp := ((5 * doy + 2) / 153)%Z in
  let d := (doy - (153 * mp + 2) / 5 + 1)%Z in
  let m := if (mp <? 10)%Z then (mp + 3)%Z else (mp - 9)%Z in
  let y := (yoe + era * 400)%Z in
  (if (m <=? 2)%Z then (y + 1)%Z else y, m, d).

Fixpoint readDigits (text : string) (acc : Z) : Z :=
  match text with
  | EmptyString => acc
  | String c rest => readDigits rest (acc * 10 + (Z.of_N (N_of_ascii c) - 48))%Z
  end.

Fixpoint writeDigits (width : nat) (z : Z) : string :=
  match width with
  | O => EmptyString
  | S width' =>
      (writeDigits width' (z / 10)
       ++ String (ascii_of_N (Z.to_N (z mod 10 + 48))) EmptyString)%string
  end.

Definition gregorian : DateLibrary :=
  {| parseDate := fun text =>
       daysFromCivil (readDigits (substring 0 4 text) 0)
         (readDigits (substring 5 2 text) 0)
         (readDigits (substring 8 2 text) 0);
     formatDate := fun z =>
       let '(y, m, d) := civilFromDays z in
       (writeDigits 4 y ++ "-" ++ writeDigits 2 m ++ "-" ++ writeDigits 2 d)%string;
     getDay := fun z => ((z + 4) mod 7)%Z |}.

(** Draws in [0, 1), the same for every symbol. *)
Definition sampleDraws (symbol : string) (n : nat) : Q :=
  if Nat.even n then 1 # 4 else 3 # 4.

(** [sampleStrategy] over two symbols of the provider, from a Friday to the
    next Tuesday. *)
Definition mockStrategy : Strategy :=
  {| scannerConfig := noRules;
     buyConfig := {| conditions := JArr [priceAbove 10] |};
     sellConfig := {| conditions := JArr [takeProfit 10] |};
     simulationConfig :=
       {| startDate := "2024-01-05";
          endDate := "2024-01-09";
          initialCapital := 10000;
          symbols := ["AAPL"%string; "MSFT"%string];
          maxPositions := 1;
          positionSize := 50 |} |}.


(** * Properties *)

(** ** The condition evaluator *)

Section EvaluatorProperties.

Context {env : Environment}.

(** *** Conversions that return *)

Lemma ToNumber_convertible (v : jsval) :
  convertible v = true -> exists n, ToNumber v = Ok n.
Proof.
  intros H. unfold ToNumber. rewrite H. eexists; reflexivity.
Qed.

Lemma applyOperator_returns (operator : jsval) (actual : num) (value : jsval) :
  convertible value = true ->
  exists b, applyOperator operator actual value = Ok b.
Proof.
  intros H. destruct (ToNumber_convertible value H) as [n Hn].
  unfold applyOperator. rewrite Hn. unfold bind.
  repeat match goal with
         | |- context [if ?c then _ else _] => destruct c
         end; eexists; reflexivity.
Qed.

Lemma evaluateCondition_returns (condition : jsval) (priceData : PriceData)
    (previousPriceData : option PriceData) :
  convertible (field condition "value") = true ->
  exists b, evaluateCondition condition priceData previousPriceData = Ok b.
Proof.
  intros H. unfold evaluateCondition.
  destruct (malformed condition); [eexists; reflexivity |].
  destruct (is_str (field condition "indicator") "price");
    [now apply applyOperator_returns |].
  destruct (is_str (field condition "indicator") "volume");
    [now apply applyOperator_returns |].
  destruct (is_str (field condition "indicator") "priceChange");
    [| eexists; reflexivity].
  destruct previousPriceData; [now apply applyOperator_returns |].
  eexists; reflexivity.
Qed.

Lemma every_returns (callback : jsval -> result bool) (array : list jsval) :
  (forall x, In x array -> exists b, callback x = Ok b) ->
  exists b, every callback array = Ok b.
Proof.
  induction array as [| x rest IH]; intros H; simpl; [eexists; reflexivity |].
  destruct (H x (or_introl eq_refl)) as [b ->]. simpl.
  destruct b; [| eexists; reflexivity].
  apply IH. intros y Hy. apply H. now right.
Qed.

Lemma some_returns (callback : jsval -> result bool) (array : list jsval) :
  (forall x, In x array -> exists b, callback x = Ok b) ->
  exists b, some callback array = Ok b.
Proof.
  induction array as [| x rest IH]; intros H; simpl; [eexists; reflexivity |].
  destruct (H x (or_introl eq_refl)) as [b ->]. simpl.
  destruct b; [eexists; reflexivity |].
  apply IH. intros y Hy. apply H. now right.
Qed.

Lemma shouldBuy_returns (buyConfig : RuleSet) (priceData : PriceData)
    (previousPriceData : option PriceData) :
  valuesConvertible buyConfig = true ->
  exists b, shouldBuy buyConfig priceData previousPriceData = Ok b.
Proof.
  intros H. unfold shouldBuy.
  destruct (noConditions buyConfig); [eexists; reflexivity |].
  apply every_returns. intros c Hc. apply evaluateCondition_returns.
  unfold valuesConvertible in H. rewrite forallb_forall in H. now apply H.
Qed.

(** ** [shouldSell] *)

Lemma some_ext (callback reading : jsval -> result bool) (array : list jsval) :
  (forall x, In x array -> callback x = reading x) ->
  some callback array = some reading array.
Proof.
  induction array as [| x rest IH]; intros H; simpl; [reflexivity |].
  rewrite (H x (or_introl eq_refl)).
  destruct (reading x) as [[|] |]; simpl; try reflexivity.
  apply IH. intros y Hy. apply H. now right.
Qed.

Lemma sellConditionMet_sellFires (priceData : PriceData)
    (previousPriceData : option PriceData) (trade : Trade) (condition : jsval) :
  isNullish condition = false ->
  sellConditionMet priceData previousPriceData trade condition
  = sellFires priceData previousPriceData trade condition.
Proof.
  intros H. unfold sellConditionMet, sellFires, getProp.
  destruct condition; try discriminate; reflexivity.
Qed.

(** [shouldSell] is false without conditions and without an open position;
    otherwise, when no element of [conditions] is [null] or [undefined], it is
    the disjunction, from left to right, of the specification's reading of
    each condition. *)
Lemma shouldSell_disjunction (sellConfig : RuleSet) (priceData : PriceData)
    (previousPriceData : option PriceData) (trade : option Trade) :
  (noConditions sellConfig = true ->
     shouldSell sellConfig priceData previousPriceData trade = Ok false)
  /\ (trade = None ->
      shouldSell sellConfig priceData previousPriceData trade = Ok false)
  /\ (forall t, trade = Some t -> is_closed t = true ->
      shouldSell sellConfig priceData previousPriceData trade = Ok false)
  /\ (forall t, trade = Some t -> is_closed t = false ->
      noConditions sellConfig = false ->
      forallb (fun c => negb (isNullish c)) (elements (conditions sellConfig)) = true ->
      shouldSell sellConfig priceData previousPriceData trade
      = some (sellFires priceData previousPriceData t)
          (elements (conditions sellConfig))).
Proof.
  unfold shouldSell. repeat split.
  - intros ->. reflexivity.
  - intros ->. destruct (noConditions sellConfig); reflexivity.
  - intros t -> ->. destruct (noConditions sellConfig); reflexivity.
  - intros t -> -> -> Hall. apply some_ext.
    intros c Hc. apply sellConditionMet_sellFires.
    rewrite forallb_forall in Hall. specialize (Hall c Hc).
    now destruct (isNullish c).
Qed.

Lemma sellFires_returns (priceData : PriceData)
    (previousPriceData : option PriceData) (trade : Trade) (condition : jsval) :
  convertible (field condition "value") = true ->
  exists b, sellFires priceData previousPriceData trade condition = Ok b.
Proof.
  intros H. unfold sellFires.
  destruct (ToNumber_convertible _ H) as [n Hn]. rewrite Hn. unfold bind.
  destruct (is_str (field condition "type") "stopLoss"); [eexists; reflexivity |].
  destruct (is_str (field condition "type") "takeProfit"); [eexists; reflexivity |].
  now apply evaluateCondition_returns.
Qed.

End EvaluatorProperties.

(** ** The metrics block *)

Section MetricsProperties.

Lemma Qlt_bool_iff (x y : Q) : Qlt_bool x y = true <-> x < y.
Proof.
  unfold Qlt_bool. rewrite negb_true_iff. split.
  - intros H. apply Qnot_le_lt. intros Hle.
    apply Qle_bool_iff in Hle. congruence.
  - intros H. destruct (Qle_bool y x) eqn:E; [| reflexivity].
    apply Qle_bool_iff in E. exfalso. exact (Qlt_not_le _ _ H E).
Qed.

Lemma Qlt_bool_false_iff (x y : Q) : Qlt_bool x y = false <-> y <= x.
Proof.
  unfold Qlt_bool. rewrite negb_false_iff. apply Qle_bool_iff.
Qed.






Lemma length_filter_split {A : Type} (f : A -> bool) (l : list A) :
  List.length l
  = (List.length (filter f l) + List.length (filter (fun x => negb (f x)) l))%nat.
Proof.
  induction l as [| x rest IH]; simpl; [reflexivity |].
  destruct (f x); simpl; lia.
Qed.

Lemma filter_without {A : Type} (f : A -> bool) (l1 l2 : list A) (x : A) :
  f x = false -> filter f (l1 ++ x :: l2) = filter f (l1 ++ l2).
Proof.
  intros H. rewrite !filter_app. simpl. now rewrite H.
Qed.

Lemma finalCapital_cases (initialCapital : Q) (equityCurve : list EquityPoint) :
  (lastElement equityCurve = None ->
     finalCapital initialCapital equityCurve = initialCapital)
  /\ (forall point, lastElement equityCurve = Some point ->
      ~ equity point == 0 ->
      finalCapital initialCapital equityCurve = equity point)
  /\ (forall point, lastElement equityCurve = Some point ->
      equity point == 0 ->
      finalCapital initialCapital equityCurve = initialCapital).
Proof.
  unfold finalCapital. repeat split.
  - intros ->. reflexivity.
  - intros point -> Hne. destruct (Qeq_bool (equity point) 0) eqn:E;
      [apply Qeq_bool_iff in E; contradiction | reflexivity].
  - intros point -> Heq. apply Qeq_bool_iff in Heq. now rewrite Heq.
Qed.

End MetricsProperties.

(** ** Dates: order, sorting, first occurrences *)

Section DateProperties.

Lemma date_lt_irrefl (a : string) : ~ String_as_OT.lt a a.
Proof. apply (StrictOrder_Irreflexive (R := String_as_OT.lt)). Qed.

Lemma date_lt_trans (a b c : string) :
  String_as_OT.lt a b -> String_as_OT.lt b c -> String_as_OT.lt a c.
Proof. apply (StrictOrder_Transitive (R := String_as_OT.lt)). Qed.

Lemma date_leb_true (a b : string) :
  date_leb a b = true <-> a = b \/ String_as_OT.lt a b.
Proof.
  unfold date_leb.
  destruct (String_as_OT.compare_spec a b) as [Heq | Hlt | Hgt];
    [change (a = b) in Heq | |].
  - split; [now left | reflexivity].
  - split; [now right | reflexivity].
  - split; [discriminate |]. intros [-> | Hlt].
    + now apply date_lt_irrefl in Hgt.
    + exfalso. exact (date_lt_irrefl a (date_lt_trans _ _ _ Hlt Hgt)).
Qed.

Lemma date_leb_false (a b : string) :
  date_leb a b = false <-> String_as_OT.lt b a.
Proof.
  unfold date_leb.
  destruct (String_as_OT.compare_spec a b) as [Heq | Hlt | Hgt];
    [change (a = b) in Heq | |].
  - split; [discriminate |]. subst. intros H. exfalso. exact (date_lt_irrefl _ H).
  - split; [discriminate |]. intros H. exfalso.
    exact (date_lt_irrefl a (date_lt_trans _ _ _ Hlt H)).
  - split; [now intros _ | reflexivity].
Qed.




Lemma In_insert (d x : string) (l : list string) :
  In x (insert d l) <-> x = d \/ In x l.
Proof.
  induction l as [| y rest IH]; simpl.
  - intuition.
  - destruct (date_leb d y); simpl; [intuition |].
    rewrite IH. intuition.
Qed.

Lemma In_sort (x : string) (l : list string) : In x (sort l) <-> In x l.
Proof.
  induction l as [| d rest IH]; simpl; [tauto |].
  rewrite In_insert, IH. intuition.
Qed.

Lemma lastElement_In {A : Type} (l : list A) (x : A) :
  lastElement l = Some x -> In x l.
Proof.
  induction l as [| y rest IH]; [discriminate |].
  destruct rest as [| z rest']; simpl.
  - intros H. injection H as ->. now left.
  - intros H. right. now apply IH.
Qed.





Lemma indexOf_prefix (x : string) (before after : list string) :
  ~ In x before ->
  indexOf x (before ++ x :: after) = Some (List.length before).
Proof.
  induction before as [| y rest IH]; intros Hnot; simpl.
  - now rewrite String.eqb_refl.
  - destruct (String.eqb y x) eqn:E.
    + apply String.eqb_eq in E. subst. exfalso. apply Hnot. now left.
    + rewrite IH; [reflexivity |]. intros Hin. apply Hnot. now right.
Qed.

Lemma In_filterFrom {A : Type} (keep : A -> nat -> bool) (array : list A) :
  forall index x, In x (filterFrom keep index array) -> In x array.
Proof.
  induction array as [| y rest IH]; intros index x H; simpl in *; [exact H |].
  destruct (keep y index); [destruct H as [-> | H] |]; eauto.
Qed.

Lemma firstOccurrences_keeps_aux (self : list string) (x : string) :
  forall before after,
  self = before ++ after ->
  ~ In x before ->
  In x after ->
  In x (filterFrom
          (fun y index =>
             match indexOf y self with
             | Some j => (j =? index)%nat
             | None => false
             end)
          (List.length before) after).
Proof.
  intros before after. revert before.
  induction after as [| y rest IH]; intros before Hself Hnot Hin;
    [contradiction |].
  simpl. destruct (string_dec y x) as [-> | Hne].
  - rewrite Hself, (indexOf_prefix x before rest Hnot), Nat.eqb_refl. now left.
  - assert (Hin' : In x rest) by (destruct Hin; [contradiction | assumption]).
    assert (Hgoal : In x (filterFrom
                            (fun y index =>
                               match indexOf y self with
                               | Some j => (j =? index)%nat
                               | None => false
                               end)
                            (S (List.length before)) rest)).
    { replace (S (List.length before)) with (List.length (before ++ [y]))
        by (rewrite length_app; simpl; lia).
      apply IH; [now rewrite <- app_assoc | | exact Hin'].
      intros H. apply in_app_iff in H. destruct H as [H | [H | []]]; auto. }
    destruct (match indexOf y self with
              | Some j => (j =? List.length before)%nat
              | None => false
              end); [now right | exact Hgoal].
Qed.

(** Removing the later occurrences keeps every date. *)
Lemma In_firstOccurrences (self : list string) (x : string) :
  In x (firstOccurrences self) <-> In x self.
Proof.
  split.
  - apply In_filterFrom.
  - intros H. apply (firstOccurrences_keeps_aux self x [] self); auto.
Qed.

(** In a series in strictly ascending order of date, the bar found for a
    date is the last bar unless the last bar has a later date. *)
Lemma ascending_after_head (a : string) (l : list string) :
  ascendingDates (a :: l) = true ->
  forall b, In b l -> String_as_OT.lt a b.
Proof.
  revert a. induction l as [| c rest IH]; intros a H b Hb; [contradiction |].
  simpl in H. apply andb_true_iff in H. destruct H as [Hac Hrest].
  apply negb_true_iff, date_leb_false in Hac.
  destruct Hb as [<- | Hb]; [exact Hac |].
  eapply date_lt_trans; [exact Hac |]. now apply (IH c).
Qed.

Lemma ascending_tail (a : string) (l : list string) :
  ascendingDates (a :: l) = true -> ascendingDates l = true.
Proof.
  destruct l as [| b rest]; [reflexivity |]. simpl.
  intros H. apply andb_true_iff in H. tauto.
Qed.


End DateProperties.


(** ** The day loop *)

Section RunProperties.

Context {env : Environment}.
Variable strategy : Strategy.

Local Abbreviation config := (simulationConfig strategy).
Local Abbreviation series := (historicalDataBySymbol strategy).

(** What an iteration of the sell loop can do: nothing, or close the
    position at the close of its bar of the day. *)
Lemma sellStep_cases (currentDate : string) (previousDate : option string)
    (st st' : LoopState) (position : Trade) :
  sellStep strategy currentDate previousDate st position = Ok st' ->
  st' = st
  \/ exists bar,
       findBar (series (symbol position)) currentDate = Some bar
       /\ is_closed position = false
       /\ st' = {| st_cash := st_cash st + close bar * inject_Z (quantity position);
                   st_positions := filter (otherObject position) (st_positions st);
                   st_allTrades :=
                     st_allTrades st ++ [closeTrade position currentDate (close bar)];
                   st_equityCurve := st_equityCurve st;
                   st_nextOid := st_nextOid st |}.
Proof.
  unfold sellStep. intros H.
  destruct (is_closed position) eqn:Hc; [left; congruence |].
  destruct (findBar (series (symbol position)) currentDate) as [bar |] eqn:Hb;
    [| left; congruence].
  destruct (shouldSell (sellConfig strategy) bar
              (previousBar strategy (symbol position) previousDate)
              (Some position)) as [[|] | e]; simpl in H; try discriminate.
  - right. exists bar. repeat split. congruence.
  - left. congruence.
Qed.

(** What an iteration of the buy loop can do: nothing, or open a position of
    [floor (positionValue / close)] shares at the close of the symbol's bar
    of the day, when the cash covers [positionValue]. *)
Lemma buyStep_cases (currentDate : string) (previousDate : option string)
    (st st' : LoopState) (sym : string) :
  buyStep strategy currentDate previousDate st sym = Ok st' ->
  st' = st
  \/ exists bar,
       findBar (series sym) currentDate = Some bar
       /\ shouldBuy (buyConfig strategy) bar (previousBar strategy sym previousDate)
          = Ok true
       /\ positionValue strategy <= st_cash st
       /\ Qfloor (positionValue strategy / close bar) <> 0%Z
       /\ st' = {| st_cash :=
                     st_cash st
                     - close bar * inject_Z (Qfloor (positionValue strategy / close bar));
                   st_positions :=
                     st_positions st ++
                       [{| symbol := sym;
                           entryDate := currentDate;
                           entryPrice := close bar;
                           exitDate := None;
                           exitPrice := None;
                           quantity := Qfloor (positionValue strategy / close bar);
                           pnl := None;
                           pnlPercentage := None;
                           status := StatusOpen;
                           oid := st_nextOid st |}];
                   st_allTrades := st_allTrades st;
                   st_equityCurve := st_equityCurve st;
                   st_nextOid := S (st_nextOid st) |}.
Proof.
  unfold buyStep. intros H.
  destruct (findBar (series sym) currentDate) as [bar |] eqn:Hb; [| left; congruence].
  destruct (passesScanner strategy bar (previousBar strategy sym previousDate))
    as [passes | e]; unfold bind in H; try discriminate.
  destruct passes; [| left; congruence].
  destruct (shouldBuy (buyConfig strategy) bar
              (previousBar strategy sym previousDate)) as [buy | e] eqn:Hs;
    try discriminate.
  destruct buy; [| left; congruence].
  destruct (Qlt_bool (st_cash st) (positionValue strategy)) eqn:Hcash;
    [left; congruence |].
  destruct (Qfloor (positionValue strategy / close bar) =? 0)%Z eqn:Hq;
    [left; congruence |].
  right. exists bar. repeat split.
  - exact Hs.
  - now apply Qlt_bool_false_iff.
  - now apply Z.eqb_neq.
  - cbn in H. now injection H as <-.
Qed.

Lemma findBar_In (l : list PriceData) (d : string) (bar : PriceData) :
  findBar l d = Some bar -> In bar l /\ date bar = d.
Proof.
  unfold findBar. intros H. apply find_some in H.
  destruct H as [Hin Hd]. apply String.eqb_eq in Hd. now split.
Qed.

(** *** Object identities *)

Lemma NoDup_map_filter {A B : Type} (f : A -> B) (g : A -> bool) (l : list A) :
  NoDup (map f l) -> NoDup (map f (filter g l)).
Proof.
  induction l as [| x rest IH]; simpl; intros H; [constructor |].
  inversion H as [| ? ? Hnot Hrest]; subst.
  destruct (g x); simpl; [| now apply IH].
  constructor; [| now apply IH].
  intros Hin. apply Hnot. apply in_map_iff in Hin.
  destruct Hin as (y & Hy & Hin). apply filter_In in Hin.
  apply in_map_iff. exists y. tauto.
Qed.

Lemma reachable_identitiesDistinct (st : LoopState) :
  reachable strategy st -> identitiesDistinct st.
Proof.
  induction 1 as [| st st' d prev position _ IH Hin Hstep
                  | st st' d prev sym _ IH Hsym Hmax Hstep
                  | st d _ IH].
  - split; [constructor | intros p []].
  - destruct IH as [Hnd Hlt].
    destruct (sellStep_cases _ _ _ _ _ Hstep) as [-> | (bar & _ & _ & ->)];
      [now split |].
    split; simpl.
    + now apply NoDup_map_filter.
    + intros p Hp. apply filter_In in Hp. now apply Hlt.
  - destruct IH as [Hnd Hlt].
    destruct (buyStep_cases _ _ _ _ _ Hstep) as [-> | (bar & _ & _ & _ & _ & ->)];
      [now split |].
    split; simpl.
    + rewrite map_app. simpl. apply NoDup_app; [exact Hnd | repeat constructor; intros [] | ].
      intros x Hx [<- | []]. apply in_map_iff in Hx.
      destruct Hx as (p & Hp & Hin). specialize (Hlt p Hin). lia.
    + intros p Hp. apply in_app_iff in Hp. destruct Hp as [Hp | [<- | []]].
      * specialize (Hlt p Hp). lia.
      * simpl. lia.
  - exact IH.
Qed.

(** *** The loops stay within [reachable] *)

Lemma sellLoop_reachable (currentDate : string) (previousDate : option string)
    (openPositions : list Trade) :
  forall st st',
  reachable strategy st ->
  NoDup (map oid openPositions) ->
  (forall p, In p openPositions -> In p (st_positions st)) ->
  sellLoop strategy currentDate previousDate openPositions st = Ok st' ->
  reachable strategy st'.
Proof.
  induction openPositions as [| position rest IH]; intros st st' Hr Hnd Hincl H;
    simpl in H.
  - now injection H as <-.
  - destruct (sellStep strategy currentDate previousDate st position)
      as [st1 | e] eqn:Hstep; simpl in H; [| discriminate].
    inversion Hnd as [| ? ? Hnot Hrest]; subst.
    apply (IH st1 st'); trivial.
    + eapply reach_sell; [exact Hr | | exact Hstep]. apply Hincl. now left.
    + intros q Hq.
      destruct (sellStep_cases _ _ _ _ _ Hstep) as [-> | (bar & _ & _ & ->)].
      * apply Hincl. now right.
      * simpl. apply filter_In. split; [apply Hincl; now right |].
        unfold otherObject. apply negb_true_iff, Nat.eqb_neq.
        intros Heq. apply Hnot. rewrite <- Heq. now apply in_map.
Qed.

Lemma buyLoop_reachable (currentDate : string) (previousDate : option string)
    (remaining : list string) :
  forall st st',
  reachable strategy st ->
  (forall sym, In sym remaining -> In sym (symbols config)) ->
  buyLoop strategy currentDate previousDate remaining st = Ok st' ->
  reachable strategy st'.
Proof.
  induction remaining as [| sym rest IH]; intros st st' Hr Hincl H; simpl in H.
  - now injection H as <-.
  - destruct (maxPositionsReached strategy st) eqn:Hmax.
    + now injection H as <-.
    + destruct (buyStep strategy currentDate previousDate st sym)
        as [st1 | e] eqn:Hstep; simpl in H; [| discriminate].
      apply (IH st1 st'); trivial.
      * eapply reach_buy; [exact Hr | | exact Hmax | exact Hstep].
        apply Hincl. now left.
      * intros s Hs. apply Hincl. now right.
Qed.

Lemma simulateDay_reachable (currentDate : string) (previousDate : option string)
    (st st' : LoopState) :
  reachable strategy st ->
  simulateDay strategy currentDate previousDate st = Ok st' ->
  reachable strategy st'.
Proof.
  intros Hr H. unfold simulateDay in H.
  destruct (sellLoop strategy currentDate previousDate (st_positions st) st)
    as [st1 | e] eqn:Hsell; simpl in H; [| discriminate].
  destruct (buyLoop strategy currentDate previousDate (symbols config) st1)
    as [st2 | e] eqn:Hbuy; simpl in H; [| discriminate].
  injection H as <-. apply reach_equity.
  eapply buyLoop_reachable; [| | exact Hbuy]; [| tauto].
  eapply sellLoop_reachable; [exact Hr | | | exact Hsell]; [| tauto].
  apply (reachable_identitiesDistinct st Hr).
Qed.

Lemma dayLoop_reachable (days : list string) :
  forall previousDate st st',
  reachable strategy st ->
  dayLoop strategy previousDate days st = Ok st' ->
  reachable strategy st'.
Proof.
  induction days as [| d rest IH]; intros prev st st' Hr H; simpl in H.
  - now injection H as <-.
  - destruct (simulateDay strategy d prev st) as [st1 | e] eqn:Hday; simpl in H;
      [| discriminate].
    apply (IH (Some d) st1 st'); [| exact H].
    eapply simulateDay_reachable; eassumption.
Qed.

(** *** The cap on open positions *)

Lemma maxPositionsReached_iff (st : LoopState) :
  maxPositionsReached strategy st = true
  <-> maxPositions config <= inject_Z (Z.of_nat (List.length (st_positions st))).
Proof.
  unfold maxPositionsReached. apply Qle_bool_iff.
Qed.

Lemma subsequence_empty {A : Type} (all : list A) : subsequence [] all.
Proof.
  induction all as [| x rest IH]; [constructor | now constructor].
Qed.

(** The count of open positions is 0, or was below [maxPositions] before
    the last position was opened. *)
Lemma reachable_count (st : LoopState) :
  reachable strategy st ->
  List.length (st_positions st) = 0%nat
  \/ inject_Z (Z.of_nat (List.length (st_positions st))) < maxPositions config + 1.
Proof.
  induction 1 as [| st st' d prev position _ IH Hin Hstep
                  | st st' d prev sym _ IH Hsym Hmax Hstep
                  | st d _ IH].
  - now left.
  - destruct (sellStep_cases _ _ _ _ _ Hstep) as [-> | (bar & _ & _ & ->)];
      [exact IH |].
    cbn [st_positions].
    pose proof (filter_length_le (otherObject position) (st_positions st)) as Hle.
    destruct IH as [H0 | Hlt]; [left; lia | right].
    apply Nat2Z.inj_le in Hle. rewrite Zle_Qle in Hle. lra.
  - destruct (buyStep_cases _ _ _ _ _ Hstep) as [-> | (bar & _ & _ & _ & _ & ->)];
      [exact IH |].
    right. cbn [st_positions]. rewrite length_app. cbn [List.length].
    assert (Hbelow : inject_Z (Z.of_nat (List.length (st_positions st)))
                     < maxPositions config).
    { apply Qnot_le_lt. intros Hle. apply maxPositionsReached_iff in Hle.
      congruence. }
    replace (Z.of_nat (List.length (st_positions st) + 1))
      with (Z.of_nat (List.length (st_positions st)) + 1)%Z by lia.
    rewrite inject_Z_plus. change (inject_Z 1) with 1. lra.
  - exact IH.
Qed.

Lemma buyLoop_opens_in_order (currentDate : string) (previousDate : option string)
    (remaining : list string) :
  forall st st',
  buyLoop strategy currentDate previousDate remaining st = Ok st' ->
  exists opened,
    st_positions st' = st_positions st ++ opened
    /\ subsequence (map symbol opened) remaining
    /\ Forall (fun p => entryDate p = currentDate) opened.
Proof.
  induction remaining as [| sym rest IH]; intros st st' H; simpl in H.
  - injection H as <-. exists []. rewrite app_nil_r.
    repeat split; constructor.
  - destruct (maxPositionsReached strategy st).
    { injection H as <-. exists []. rewrite app_nil_r.
      repeat split; [apply subsequence_empty | constructor]. }
    destruct (buyStep strategy currentDate previousDate st sym)
      as [st1 | e] eqn:Hstep; simpl in H; [| discriminate].
    destruct (IH _ _ H) as (opened & Hpos & Hsub & Hdates).
    destruct (buyStep_cases _ _ _ _ _ Hstep) as [-> | (bar & _ & _ & _ & _ & ->)].
    + exists opened. repeat split; [exact Hpos | now constructor | exact Hdates].
    + cbn [st_positions] in Hpos. rewrite <- app_assoc in Hpos.
      eexists. split; [exact Hpos |]. split.
      * cbn [app map symbol]. now constructor.
      * constructor; [reflexivity | exact Hdates].
Qed.

Lemma sellLoop_keeps_positions (currentDate : string) (previousDate : option string)
    (openPositions : list Trade) :
  forall st st',
  sellLoop strategy currentDate previousDate openPositions st = Ok st' ->
  forall p, In p (st_positions st') -> In p (st_positions st).
Proof.
  induction openPositions as [| position rest IH]; intros st st' H p Hp;
    simpl in H.
  - now injection H as <-.
  - destruct (sellStep strategy currentDate previousDate st position)
      as [st1 | e] eqn:Hstep; simpl in H; [| discriminate].
    specialize (IH _ _ H p Hp).
    destruct (sellStep_cases _ _ _ _ _ Hstep) as [-> | (bar & _ & _ & ->)];
      [exact IH |].
    cbn [st_positions] in IH. now apply filter_In in IH.
Qed.

(** C3, amended.  No state of the day loop (after an iteration of the sell
    loop, after an iteration of the buy loop, at the equity snapshot) holds
    more open positions than [maxPositions] rounded up to a whole number, and
    none when [maxPositions] is negative; when [maxPositions] is a whole
    number [n] the bound is [n] itself.  As soon as the count has reached
    [maxPositions] the buy loop leaves the state as it is whatever symbols
    remain; the positions opened on a day come after the positions kept
    from the day before, in the configured order of their symbols. *)
Theorem openPositions_bounded_by_ceiling_of_maxPositions :
  (forall st, reachable strategy st ->
     (Z.of_nat (List.length (st_positions st))
      <= Z.max 0 (Qceiling (maxPositions config)))%Z)
  /\ (forall n : nat,
        maxPositions config == inject_Z (Z.of_nat n) ->
        forall st, reachable strategy st ->
        (List.length (st_positions st) <= n)%nat)
  /\ (forall days st,
        dayLoop strategy None days (initialState strategy) = Ok st ->
        (Z.of_nat (List.length (st_positions st))
         <= Z.max 0 (Qceiling (maxPositions config)))%Z)
  /\ (forall st currentDate previousDate remaining,
        maxPositions config
        <= inject_Z (Z.of_nat (List.length (st_positions st))) ->
        buyLoop strategy currentDate previousDate remaining st = Ok st)
  /\ (forall st st' currentDate previousDate,
        simulateDay strategy currentDate previousDate st = Ok st' ->
        exists kept opened,
          st_positions st' = kept ++ opened
          /\ (forall p, In p kept -> In p (st_positions st))
          /\ subsequence (map symbol opened) (symbols config)
          /\ Forall (fun p => entryDate p = currentDate) opened).
Proof.
  assert (Hbound : forall st, reachable strategy st ->
            (Z.of_nat (List.length (st_positions st))
             <= Z.max 0 (Qceiling (maxPositions config)))%Z).
  { intros st Hr. destruct (reachable_count st Hr) as [-> | Hlt]; [simpl; lia |].
    pose proof (Qle_ceiling (maxPositions config)) as Hceil.
    assert (Hz : inject_Z (Z.of_nat (List.length (st_positions st)))
                 < inject_Z (Qceiling (maxPositions config) + 1)).
    { rewrite inject_Z_plus. change (inject_Z 1) with 1. lra. }
    rewrite <- Zlt_Qlt in Hz. lia. }
  split; [exact Hbound | split; [| split; [| split]]].
  - intros n Hn st Hr. specialize (Hbound st Hr).
    rewrite Hn, Qceiling_Z in Hbound. lia.
  - intros days st H. apply Hbound.
    eapply dayLoop_reachable; [apply reach_initial | exact H].
  - intros st d prev remaining Hreached. destruct remaining as [| sym rest];
      [reflexivity |].
    simpl. apply maxPositionsReached_iff in Hreached. now rewrite Hreached.
  - intros st st' d prev H. unfold simulateDay in H.
    destruct (sellLoop strategy d prev (st_positions st) st) as [st1 | e] eqn:Hsell;
      simpl in H; [| discriminate].
    destruct (buyLoop strategy d prev (symbols config) st1) as [st2 | e] eqn:Hbuy;
      simpl in H; [| discriminate].
    injection H as <-. cbn [recordEquity st_positions].
    destruct (buyLoop_opens_in_order _ _ _ _ _ Hbuy) as (opened & Hpos & Hsub & Hd).
    exists (st_positions st1), opened. repeat split; trivial.
    now apply (sellLoop_keeps_positions _ _ _ _ _ Hsell).
Qed.


(** *** What the open positions and the ledger hold *)

Lemma closeTrade_asClosed (p : Trade) (day : string) (price : Q) :
  asClosed (closeTrade p day price).
Proof.
  split; [reflexivity |]. exists price. split; reflexivity.
Qed.

Lemma reachable_contents (st : LoopState) :
  reachable strategy st ->
  Forall (asOpened strategy) (st_positions st) /\ Forall asClosed (st_allTrades st).
Proof.
  induction 1 as [| st st' d prev position _ IH Hin Hstep
                  | st st' d prev sym _ IH Hsym Hmax Hstep
                  | st d _ IH].
  - split; constructor.
  - destruct IH as [Hopen Hclosed].
    destruct (sellStep_cases _ _ _ _ _ Hstep) as [-> | (bar & _ & _ & ->)];
      [now split |].
    split; simpl.
    + apply Forall_forall. intros p Hp. apply filter_In in Hp.
      rewrite Forall_forall in Hopen. now apply Hopen.
    + apply Forall_app. split; [exact Hclosed |].
      constructor; [apply closeTrade_asClosed | constructor].
  - destruct IH as [Hopen Hclosed].
    destruct (buyStep_cases _ _ _ _ _ Hstep)
      as [-> | (bar & Hbar & _ & _ & Hq & ->)]; [now split |].
    split; simpl; [| exact Hclosed].
    apply Forall_app. split; [exact Hopen |].
    constructor; [| constructor].
    repeat split; simpl; trivial.
    exists bar. split; [| reflexivity]. now apply findBar_In in Hbar.
  - exact IH.
Qed.

(** *** Cash *)

Lemma debit_le_positionValue (value price : Q) :
  0 < price -> price * inject_Z (Qfloor (value / price)) <= value.
Proof.
  intros Hp.
  assert (H : price * inject_Z (Qfloor (value / price)) <= price * (value / price)).
  { apply Qmult_le_l; [exact Hp | apply Qfloor_le]. }
  rewrite Qmult_div_r in H; [exact H |].
  intros Heq. rewrite Heq in Hp. discriminate.
Qed.

Lemma quantity_nonneg (value price : Q) :
  0 <= value -> 0 < price -> (0 <= Qfloor (value / price))%Z.
Proof.
  intros Hv Hp.
  change 0%Z with (Qfloor 0). apply Qfloor_resp_le.
  apply Qle_shift_div_l; [exact Hp |]. lra.
Qed.

Lemma positionValue_nonneg :
  0 <= initialCapital config -> 0 <= positionSize config ->
  0 <= positionValue strategy.
Proof.
  intros Hc Hs. unfold positionValue.
  apply Qmult_le_0_compat; [| exact Hc].
  apply Qle_shift_div_l; [reflexivity | lra].
Qed.

(** C9, amended.  In exact arithmetic, with a non-negative initial capital,
    a non-negative position size and strictly positive closes, cash is
    non-negative in every state of the day loop.  An iteration of the buy
    loop either leaves the state or opens a position while cash covers
    [positionValue], debiting [close * floor (positionValue / close)], which
    is at most [positionValue]; an iteration of the sell loop never lowers
    cash. *)
Theorem cash_never_negative :
  0 <= initialCapital config ->
  0 <= positionSize config ->
  pricesPositive strategy ->
  (forall st, reachable strategy st -> 0 <= st_cash st)
  /\ (forall st st' currentDate previousDate sym,
        In sym (symbols config) ->
        buyStep strategy currentDate previousDate st sym = Ok st' ->
        st' = st
        \/ exists bar,
             findBar (series sym) currentDate = Some bar
             /\ positionValue strategy <= st_cash st
             /\ st_cash st'
                = st_cash st
                  - close bar * inject_Z (Qfloor (positionValue strategy / close bar))
             /\ close bar * inject_Z (Qfloor (positionValue strategy / close bar))
                <= positionValue strategy)
  /\ (forall st st' currentDate previousDate position,
        reachable strategy st ->
        In position (st_positions st) ->
        sellStep strategy currentDate previousDate st position = Ok st' ->
        st_cash st <= st_cash st').
Proof.
  intros Hcap Hsize Hprices.
  pose proof (positionValue_nonneg Hcap Hsize) as Hvalue.
  assert (Hbuy : forall st st' currentDate previousDate sym,
            In sym (symbols config) ->
            buyStep strategy currentDate previousDate st sym = Ok st' ->
            st' = st
            \/ exists bar,
                 findBar (series sym) currentDate = Some bar
                 /\ positionValue strategy <= st_cash st
                 /\ st_cash st'
                    = st_cash st
                      - close bar
                        * inject_Z (Qfloor (positionValue strategy / close bar))
                 /\ close bar
                    * inject_Z (Qfloor (positionValue strategy / close bar))
                    <= positionValue strategy).
  { intros st st' d prev sym Hsym Hstep.
    destruct (buyStep_cases _ _ _ _ _ Hstep)
      as [-> | (bar & Hbar & _ & Hcash & _ & ->)]; [now left |].
    right. exists bar. repeat split; trivial.
    apply debit_le_positionValue.
    apply (Hprices sym bar Hsym). now apply findBar_In in Hbar. }
  assert (Hsell : forall st st' currentDate previousDate position,
            reachable strategy st ->
            In position (st_positions st) ->
            sellStep strategy currentDate previousDate st position = Ok st' ->
            st_cash st <= st_cash st').
  { intros st st' d prev position Hr Hin Hstep.
    destruct (sellStep_cases _ _ _ _ _ Hstep) as [-> | (bar & Hbar & _ & ->)];
      [apply Qle_refl |].
    simpl.
    destruct (reachable_contents st Hr) as [Hopen _].
    rewrite Forall_forall in Hopen.
    destruct (Hopen position Hin) as (Hsym & _ & _ & (entry & Hentry & Heq) & Hq & _).
    assert (0 < close bar)
      by (apply (Hprices (symbol position) bar Hsym); now apply findBar_In in Hbar).
    assert (0 <= inject_Z (quantity position)).
    { rewrite Hq, Heq. change 0 with (inject_Z 0). rewrite <- Zle_Qle.
      apply quantity_nonneg; [exact Hvalue |].
      now apply (Hprices (symbol position) entry Hsym). }
    assert (0 <= close bar * inject_Z (quantity position))
      by (apply Qmult_le_0_compat; lra).
    lra. }
  split; [| split; [exact Hbuy | exact Hsell]].
  induction 1 as [| st st' d prev position Hr IH Hin Hstep
                  | st st' d prev sym Hr IH Hsym Hmax Hstep
                  | st d _ IH].
  - exact Hcap.
  - pose proof (Hsell _ _ _ _ _ Hr Hin Hstep). lra.
  - destruct (Hbuy _ _ _ _ _ Hsym Hstep) as [-> | (bar & _ & Hcash & -> & Hdebit)];
      [exact IH |].
    lra.
  - exact IH.
Qed.


(** *** Runs that complete *)

Lemma passesScanner_total (bar : PriceData) (prev : option PriceData) :
  scannerWellShaped strategy = true ->
  valuesConvertible (scannerConfig strategy) = true ->
  exists b, passesScanner strategy bar prev = Ok b.
Proof.
  unfold scannerWellShaped, passesScanner, valuesConvertible. intros H Hv.
  destruct (truthy (conditions (scannerConfig strategy))); simpl in *;
    [| eexists; reflexivity].
  destruct (conditions (scannerConfig strategy)); try discriminate.
  apply every_returns. intros c Hc. apply evaluateCondition_returns.
  simpl in Hv. rewrite forallb_forall in Hv. now apply Hv.
Qed.

Lemma shouldSell_total (bar : PriceData) (prev : option PriceData)
    (trade : option Trade) :
  sellWellShaped strategy = true ->
  valuesConvertible (sellConfig strategy) = true ->
  exists b, shouldSell (sellConfig strategy) bar prev trade = Ok b.
Proof.
  unfold sellWellShaped. intros H Hv.
  destruct (shouldSell_disjunction (sellConfig strategy) bar prev trade)
    as (Hnone & Habsent & Hclosed & Hany).
  destruct (noConditions (sellConfig strategy)) eqn:Hn;
    [eexists; now apply Hnone |].
  destruct trade as [t |]; [| eexists; now apply Habsent].
  destruct (is_closed t) eqn:Hc; [eexists; now apply (Hclosed t) |].
  rewrite (Hany t eq_refl Hc eq_refl H).
  apply some_returns. intros c Hin. apply sellFires_returns.
  unfold valuesConvertible in Hv. rewrite forallb_forall in Hv. now apply Hv.
Qed.

Lemma sellStep_total (d : string) (prev : option string) (st : LoopState)
    (position : Trade) :
  sellWellShaped strategy = true ->
  valuesConvertible (sellConfig strategy) = true ->
  exists st', sellStep strategy d prev st position = Ok st'.
Proof.
  intros H Hv. unfold sellStep.
  destruct (is_closed position); [eexists; reflexivity |].
  destruct (findBar (series (symbol position)) d) as [bar |];
    [| eexists; reflexivity].
  destruct (shouldSell_total bar (previousBar strategy (symbol position) prev)
              (Some position) H Hv) as [b ->].
  simpl. destruct b; eexists; reflexivity.
Qed.

Lemma sellLoop_total (d : string) (prev : option string) (l : list Trade) :
  sellWellShaped strategy = true ->
  valuesConvertible (sellConfig strategy) = true ->
  forall st, exists st', sellLoop strategy d prev l st = Ok st'.
Proof.
  intros H Hv. induction l as [| position rest IH]; intros st; simpl.
  - eexists; reflexivity.
  - destruct (sellStep_total d prev st position H Hv) as [st1 ->]. simpl. apply IH.
Qed.

Lemma buyStep_total (d : string) (prev : option string) (st : LoopState)
    (sym : string) :
  scannerWellShaped strategy = true ->
  valuesConvertible (scannerConfig strategy) = true ->
  buyReturns strategy ->
  exists st', buyStep strategy d prev st sym = Ok st'.
Proof.
  intros H Hv Hbuy. unfold buyStep.
  destruct (findBar (series sym) d) as [bar |]; [| eexists; reflexivity].
  destruct (passesScanner_total bar (previousBar strategy sym prev) H Hv) as [b ->].
  unfold bind.
  destruct b.
  - destruct (Hbuy bar (previousBar strategy sym prev)) as [buy ->].
    repeat match goal with
           | |- context [if ?c then _ else _] => destruct c
           end; eexists; reflexivity.
  - eexists; reflexivity.
Qed.

Lemma buyLoop_total (d : string) (prev : option string) (remaining : list string) :
  scannerWellShaped strategy = true ->
  valuesConvertible (scannerConfig strategy) = true ->
  buyReturns strategy ->
  forall st, exists st', buyLoop strategy d prev remaining st = Ok st'.
Proof.
  intros H Hv Hbuy. induction remaining as [| sym rest IH]; intros st; simpl.
  - eexists; reflexivity.
  - destruct (maxPositionsReached strategy st); [eexists; reflexivity |].
    destruct (buyStep_total d prev st sym H Hv Hbuy) as [st1 ->]. simpl. apply IH.
Qed.

Lemma dayLoop_total (days : list string) :
  scannerWellShaped strategy = true ->
  valuesConvertible (scannerConfig strategy) = true ->
  buyReturns strategy ->
  sellWellShaped strategy = true ->
  valuesConvertible (sellConfig strategy) = true ->
  forall prev st, exists st', dayLoop strategy prev days st = Ok st'.
Proof.
  intros Hscan Hscanv Hbuy Hsell Hsellv.
  induction days as [| d rest IH]; intros prev st; simpl.
  - eexists; reflexivity.
  - unfold simulateDay.
    destruct (sellLoop_total d prev (st_positions st) Hsell Hsellv st) as [st1 ->].
    simpl.
    destruct (buyLoop_total d prev (symbols config) Hscan Hscanv Hbuy st1)
      as [st2 ->].
    simpl. apply IH.
Qed.

Lemma lastElement_nonempty {A : Type} (l : list A) :
  l <> [] -> exists x, lastElement l = Some x.
Proof.
  induction l as [| x rest IH]; intros H; [congruence |].
  destruct rest as [| y rest']; [now exists x |].
  destruct IH as [z Hz]; [discriminate |]. exists z. exact Hz.
Qed.

Lemma closeRemaining_total (remaining : list Trade) :
  Forall (asOpened strategy) remaining ->
  forall allTrades, exists l, closeRemaining strategy remaining allTrades = Ok l.
Proof.
  induction remaining as [| p rest IH]; intros Hall allTrades; simpl.
  - eexists; reflexivity.
  - inversion Hall as [| ? ? Hp Hrest]; subst.
    destruct Hp as (_ & _ & _ & (bar & Hbar & _) & _).
    destruct (lastElement_nonempty (series (symbol p))) as [lastBar ->];
      [intros Hnil; rewrite Hnil in Hbar; contradiction |].
    now apply IH.
Qed.

(** A run completes when the scanner's [conditions] is absent or an array,
    no sell condition is [null] or [undefined], and every [value] of the three
    rule sets is convertible. *)
Lemma runSimulation_total :
  scannerWellShaped strategy = true ->
  valuesConvertible (scannerConfig strategy) = true ->
  valuesConvertible (buyConfig strategy) = true ->
  sellWellShaped strategy = true ->
  valuesConvertible (sellConfig strategy) = true ->
  exists res, runSimulation strategy = Ok res.
Proof.
  intros Hscan Hscanv Hbuyv Hsell Hsellv. unfold runSimulation.
  assert (Hbuy : buyReturns strategy)
    by (intros bar prev; now apply shouldBuy_returns).
  destruct (dayLoop_total (allDates strategy) Hscan Hscanv Hbuy Hsell Hsellv None
              (initialState strategy)) as [st Hst].
  rewrite Hst. simpl.
  assert (Hr : reachable strategy st)
    by (eapply dayLoop_reachable; [apply reach_initial | exact Hst]).
  destruct (closeRemaining_total (st_positions st)
              (proj1 (reachable_contents st Hr)) (st_allTrades st)) as [l ->].
  simpl. eexists; reflexivity.
Qed.

(** The pieces of a completed run. *)
Lemma runSimulation_Ok (res : SimulationResults) :
  runSimulation strategy = Ok res ->
  exists st allTrades,
    dayLoop strategy None (allDates strategy) (initialState strategy) = Ok st
    /\ closeRemaining strategy (st_positions st) (st_allTrades st) = Ok allTrades
    /\ res = computeResults (initialCapital config) allTrades (st_equityCurve st).
Proof.
  unfold runSimulation. intros H.
  destruct (dayLoop strategy None (allDates strategy) (initialState strategy))
    as [st | e] eqn:Hloop; unfold bind in H; [| discriminate].
  destruct (closeRemaining strategy (st_positions st) (st_allTrades st))
    as [l | e] eqn:Hclose; [| discriminate].
  exists st, l. split; [reflexivity | split; [exact Hclose |]].
  injection H as H. symmetry. exact H.
Qed.

(** *** An empty buy rule set *)

Lemma shouldBuy_noConditions (bar : PriceData) (prev : option PriceData) :
  noConditions (buyConfig strategy) = true ->
  shouldBuy (buyConfig strategy) bar prev = Ok false.
Proof.
  unfold shouldBuy. now intros ->.
Qed.

Lemma buyLoop_noConditions (d : string) (prev : option string)
    (remaining : list string) :
  noConditions (buyConfig strategy) = true ->
  forall st st', buyLoop strategy d prev remaining st = Ok st' -> st' = st.
Proof.
  intros Hno. induction remaining as [| sym rest IH]; intros st st' H; simpl in H.
  - now injection H as <-.
  - destruct (maxPositionsReached strategy st); [now injection H as <- |].
    destruct (buyStep strategy d prev st sym) as [st1 | e] eqn:Hstep; simpl in H;
      [| discriminate].
    destruct (buyStep_cases _ _ _ _ _ Hstep) as [-> | (bar & _ & Hbuy & _)].
    + now apply IH.
    + rewrite (shouldBuy_noConditions bar _ Hno) in Hbuy. discriminate.
Qed.

Lemma dayLoop_noConditions (days : list string) :
  noConditions (buyConfig strategy) = true ->
  forall prev st st',
  st_positions st = [] ->
  dayLoop strategy prev days st = Ok st' ->
  st_positions st' = []
  /\ st_allTrades st' = st_allTrades st
  /\ st_equityCurve st'
     = st_equityCurve st ++ map (fun d => mkEquityPoint d (st_cash st)) days.
Proof.
  intros Hno. induction days as [| d rest IH]; intros prev st st' Hempty H;
    simpl in H.
  - injection H as <-. now rewrite app_nil_r.
  - unfold simulateDay in H. rewrite Hempty in H. simpl in H.
    destruct (buyLoop strategy d prev (symbols config) st) as [st2 | e] eqn:Hbuy;
      simpl in H; [| discriminate].
    apply (buyLoop_noConditions _ _ _ Hno) in Hbuy. subst st2.
    apply IH in H; [| exact Hempty].
    destruct H as (Hp & Ht & Hc). repeat split; trivial.
    rewrite Hc. simpl. rewrite <- app_assoc. simpl.
    unfold portfolioValue. rewrite Hempty. reflexivity.
Qed.

Lemma dayLoop_noConditions_total (days : list string) :
  noConditions (buyConfig strategy) = true ->
  scannerWellShaped strategy = true ->
  valuesConvertible (scannerConfig strategy) = true ->
  forall prev st, st_positions st = [] ->
  exists st', dayLoop strategy prev days st = Ok st'.
Proof.
  intros Hno Hscan Hscanv.
  assert (Hreturns : buyReturns strategy)
    by (intros bar prev'; eexists; now apply shouldBuy_noConditions).
  induction days as [| d rest IH]; intros prev st Hempty; simpl.
  - eexists; reflexivity.
  - unfold simulateDay. rewrite Hempty. simpl.
    destruct (buyLoop_total d prev (symbols config) Hscan Hscanv Hreturns st)
      as [st2 Hbuy].
    rewrite Hbuy. simpl.
    apply (buyLoop_noConditions _ _ _ Hno) in Hbuy. subst st2.
    apply IH. exact Hempty.
Qed.

(** C8. When the buy rule set has no conditions, [shouldBuy] is false on
    every bar, and every completed run has an empty trade ledger and an
    equity curve with one point per trading day, each equal to the initial
    capital.  The run completes whenever the scanner, which is evaluated
    before the buy rules, cannot throw: its [conditions] is absent or an
    array, and the [value] of each of its conditions is convertible. *)
Theorem empty_buy_rules_flat_run :
  noConditions (buyConfig strategy) = true ->
  (forall bar prev, shouldBuy (buyConfig strategy) bar prev = Ok false)
  /\ (forall res,
        runSimulation strategy = Ok res ->
        trades res = []
        /\ equityCurve res
           = map (fun d => mkEquityPoint d (initialCapital config))
               (allDates strategy))
  /\ (scannerWellShaped strategy = true ->
      valuesConvertible (scannerConfig strategy) = true ->
      exists res, runSimulation strategy = Ok res).
Proof.
  intros Hno. split; [| split].
  - intros bar prev. now apply shouldBuy_noConditions.
  - intros res Hres.
    destruct (runSimulation_Ok res Hres) as (st & allTrades & Hloop & Hclose & ->).
    apply (dayLoop_noConditions _ Hno) in Hloop; [| reflexivity].
    destruct Hloop as (Hp & Ht & Hc).
    rewrite Hp, Ht in Hclose. simpl in Hclose. injection Hclose as <-.
    split; [reflexivity |]. simpl. exact Hc.
  - intros Hscan Hscanv. unfold runSimulation.
    destruct (dayLoop_noConditions_total (allDates strategy) Hno Hscan Hscanv None
                (initialState strategy) eq_refl) as [st Hst].
    rewrite Hst. simpl.
    apply (dayLoop_noConditions _ Hno) in Hst; [| reflexivity].
    destruct Hst as (Hp & _). rewrite Hp. simpl. eexists; reflexivity.
Qed.


(** *** The ledger against the equity curve *)









Lemma lastElement_snoc {A : Type} (l : list A) (x : A) :
  lastElement (l ++ [x]) = Some x.
Proof.
  induction l as [| y rest IH]; [reflexivity |].
  simpl. destruct (rest ++ [x]) eqn:E; [| exact IH].
  destruct rest; discriminate.
Qed.




Lemma date_in_allDates (sym : string) (bar : PriceData) :
  In sym (symbols config) ->
  In bar (series sym) ->
  In (date bar) (allDates strategy).
Proof.
  intros Hsym Hbar. unfold allDates.
  apply In_sort, In_firstOccurrences, in_map, in_concat.
  exists (series sym). split; [| exact Hbar].
  unfold seriesOfAllSymbols. apply in_map. now apply In_firstOccurrences.
Qed.




(** *** The metrics of a run *)


Lemma zero_pnl_neither (t : Trade) :
  pnlOrZero t == 0 -> isWinning t = false /\ isLosing t = false.
Proof.
  intros H. unfold isWinning, isLosing.
  split; apply Qlt_bool_false_iff; rewrite H; apply Qle_refl.
Qed.

(** C10. In the metrics of a completed run, [losingTrades] is
    [totalTrades - winningTrades], that is the number of trades that are not
    winning.  A trade whose pnl is 0 is neither winning nor losing: added to a
    ledger it raises [losingTrades] by one and leaves [grossProfit],
    [grossLoss] and [profitFactor] as they were. *)
Theorem losingTrades_counts_zero_pnl (res : SimulationResults) :
  runSimulation strategy = Ok res ->
  (totalTrades (metrics res) = Z.of_nat (List.length (trades res))
   /\ winningTrades (metrics res)
      = Z.of_nat (List.length (filter isWinning (trades res)))
   /\ losingTrades (metrics res)
      = (totalTrades (metrics res) - winningTrades (metrics res))%Z
   /\ losingTrades (metrics res)
      = Z.of_nat (List.length (filter (fun t => negb (isWinning t)) (trades res))))
  /\ (forall t, In t (trades res) -> pnlOrZero t == 0 ->
      isWinning t = false /\ isLosing t = false)
  /\ (forall capital before after curve t,
        pnlOrZero t == 0 ->
        losingTrades (metrics (computeResults capital (before ++ t :: after) curve))
        = (losingTrades (metrics (computeResults capital (before ++ after) curve)) + 1)%Z
        /\ grossProfit (before ++ t :: after) = grossProfit (before ++ after)
        /\ grossLoss (before ++ t :: after) = grossLoss (before ++ after)
        /\ profitFactor (metrics (computeResults capital (before ++ t :: after) curve))
           = profitFactor (metrics (computeResults capital (before ++ after) curve))).
Proof.
  intros Hres.
  destruct (runSimulation_Ok res Hres) as (st & allTrades & _ & _ & ->).
  cbn [metrics trades totalTrades winningTrades losingTrades computeResults].
  split; [| split].
  - repeat split.
    rewrite (length_filter_split isWinning allTrades) at 1. lia.
  - intros t _. apply zero_pnl_neither.
  - intros capital before after curve t Hzero.
    destruct (zero_pnl_neither t Hzero) as [Hwin Hlose].
    cbn [metrics losingTrades profitFactor computeResults].
    unfold grossProfit, grossLoss.
    rewrite !(filter_without isWinning before after t Hwin).
    rewrite !(filter_without isLosing before after t Hlose).
    repeat split. rewrite !length_app. simpl. lia.
Qed.

End RunProperties.

(** ** The properties on the sample inputs *)

Lemma sampleStrategy_pricesPositive :
  pricesPositive (env := sampleEnvironment) sampleStrategy.
Proof.
  intros sym bar Hsym Hbar. simpl in Hsym. destruct Hsym as [<- | []].
  vm_compute in Hbar.
  destruct Hbar as [<- | [<- | [<- | []]]]; reflexivity.
Qed.


(** The sample run completes with [sampleResults]. *)
Lemma sampleStrategy_runs :
  runSimulation (env := sampleEnvironment) sampleStrategy = Ok sampleResults.
Proof. vm_compute. reflexivity. Qed.

(** The first trade of the sample run is bought on the first day and sold by
    the take-profit rule on the second, with a pnl of 20. *)
Example sample_run_takes_profit :
  option_map (fun t => (entryDate t, exitDate t, pnl t, status t))
    (nth_error (trades sampleResults) 0)
  = Some ("2024-01-01"%string, Some "2024-01-02"%string, Some 20, StatusClosed).
Proof. reflexivity. Qed.

(** With [maxPositions = 1] and two symbols that both signal on the first
    day, only the first configured symbol is bought. *)
Example sample_run_opens_first_symbol_only :
  match runSimulation (env := sampleEnvironment)
          (holdStrategy 100 ["ZETA"%string; "ACME"%string] 100) with
  | Ok res => map symbol (trades res) = ["ZETA"%string]
  | Throw _ => False
  end.
Proof. vm_compute. reflexivity. Qed.

(** The open positions of the sample strategy, whose [maxPositions] is 1. *)
Lemma openPositions_bounded_by_ceiling_of_maxPositions_witness :
  maxPositions (simulationConfig sampleStrategy) == inject_Z (Z.of_nat 1)
  /\ forall st,
       reachable (env := sampleEnvironment) sampleStrategy st ->
       (List.length (st_positions st) <= 1)%nat.
Proof.
  split; [reflexivity |].
  apply (proj1 (proj2 (openPositions_bounded_by_ceiling_of_maxPositions
                         (env := sampleEnvironment) sampleStrategy))
           1%nat ltac:(reflexivity)).
Defined.

(** Cash in the runs of the sample strategy. *)
Lemma cash_never_negative_witness :
  0 <= initialCapital (simulationConfig sampleStrategy)
  /\ 0 <= positionSize (simulationConfig sampleStrategy)
  /\ forall st,
       reachable (env := sampleEnvironment) sampleStrategy st -> 0 <= st_cash st.
Proof.
  assert (Hcap : 0 <= initialCapital (simulationConfig sampleStrategy))
    by (vm_compute; discriminate).
  assert (Hsize : 0 <= positionSize (simulationConfig sampleStrategy))
    by (vm_compute; discriminate).
  split; [exact Hcap | split; [exact Hsize |]].
  apply (proj1 (cash_never_negative (env := sampleEnvironment) sampleStrategy
                  Hcap Hsize sampleStrategy_pricesPositive)).
Defined.

(** The run of the strategy without buy rules: no trade, 100 each day. *)
Lemma empty_buy_rules_flat_run_witness :
  noConditions (buyConfig idleStrategy) = true
  /\ exists res,
       runSimulation (env := sampleEnvironment) idleStrategy = Ok res
       /\ trades res = []
       /\ equityCurve res
          = [mkEquityPoint "2024-01-01" 100; mkEquityPoint "2024-01-02" 100;
             mkEquityPoint "2024-01-03" 100].
Proof.
  split; [reflexivity |].
  destruct (empty_buy_rules_flat_run (env := sampleEnvironment) idleStrategy
              eq_refl) as (_ & Hflat & Hruns).
  destruct (Hruns eq_refl eq_refl) as [res Hres].
  exists res. split; [exact Hres |]. exact (Hflat res Hres).
Defined.



(** The trade counts of the sample run. *)
Lemma losingTrades_counts_zero_pnl_witness :
  losingTrades (metrics sampleResults)
  = (totalTrades (metrics sampleResults) - winningTrades (metrics sampleResults))%Z.
Proof.
  destruct (losingTrades_counts_zero_pnl (env := sampleEnvironment)
              sampleStrategy sampleResults sampleStrategy_runs)
    as ((_ & _ & H & _) & _).
  exact H.
Defined.


(** C3 as stated fails: with [maxPositions] at one and a half, the test
    [positions.length >= maxPositions] still fails at one open position, and
    the buy loop of the first day opens a second one. *)
Lemma fractional_maxPositions_is_exceeded :
  exists st,
    dayLoop (env := sampleEnvironment) fractionalStrategy None
      (allDates (env := sampleEnvironment) fractionalStrategy)
      (initialState fractionalStrategy) = Ok st
    /\ map symbol (st_positions st) = ["ZETA"%string; "ACME"%string]
    /\ maxPositions (simulationConfig fractionalStrategy)
       < inject_Z (Z.of_nat (List.length (st_positions st))).
Proof.
  eexists. split; [vm_compute; reflexivity |].
  split; reflexivity.
Qed.

(** C6 at a condition whose [value] is the object [{toString: 0}]: the
    comparison [actualValue > value] converts the object, whose own
    [toString] is not a function, and throws; so does the run whose buy rule
    set holds the condition.  A [value] of the wrong type that converts is
    compared as a number: the price is above [null]. *)
Lemma evaluateCondition_throws_on_unconvertible_value :
  malformed (priceCompared ">" unconvertible) = false
  /\ evaluateCondition (env := sampleEnvironment) (priceCompared ">" unconvertible)
       (sampleBar "2024-01-02" 60) None
     = Throw TypeError
  /\ runSimulation (env := sampleEnvironment)
       {| scannerConfig := noRules;
          buyConfig := {| conditions := JArr [priceCompared ">" unconvertible] |};
          sellConfig := noRules;
          simulationConfig := sampleConfig 100 ["ACME"%string] 100 |}
     = Throw TypeError
  /\ evaluateCondition (env := sampleEnvironment) (priceCompared ">" JNull)
       (sampleBar "2024-01-02" 60) None
     = Ok true.
Proof.
  repeat split; vm_compute; reflexivity.
Qed.


(** C9 as stated fails: with a non-negative initial capital and a position
    size of -1000 percent, the buy of the first day sells 20 shares short at
    50 (cash 1100) and the take profit of the second day closes them at 60:
    the cash is -100, and stays so. *)
Lemma negative_positionSize_gives_negative_cash :
  0 <= initialCapital (simulationConfig shortStrategy)
  /\ exists st,
       dayLoop (env := sampleEnvironment) shortStrategy None
         (allDates (env := sampleEnvironment) shortStrategy)
         (initialState shortStrategy) = Ok st
       /\ reachable (env := sampleEnvironment) shortStrategy st
       /\ st_cash st == -100
       /\ st_cash st < 0.
Proof.
  split; [vm_compute; discriminate |].
  assert (Hloop : exists st,
            dayLoop (env := sampleEnvironment) shortStrategy None
              (allDates (env := sampleEnvironment) shortStrategy)
              (initialState shortStrategy) = Ok st
            /\ st_cash st == -100)
    by (eexists; split; vm_compute; reflexivity).
  destruct Hloop as (st & Hloop & Hcash).
  exists st. split; [exact Hloop | split; [| split; [exact Hcash |]]].
  - eapply dayLoop_reachable; [apply reach_initial | exact Hloop].
  - rewrite Hcash. reflexivity.
Qed.

(** The rounding that the exact arithmetic leaves out, on three inputs.  With
    all of a capital of 3738 in one position at a close of 149.52, the buy
    passes the test [cash >= positionValue] and debits 25 shares for
    3738.0000000000005: the cash is negative by a rounding error.  29 percent
    of 100000 is 28999.999999999996 and buys 28 shares at 1000, not 29.  From
    100 to 71 the percent change is -28.999999999999996, above -29. *)
Module Binary64Examples.

Import PrimFloat.
Local Open Scope float_scope.

Example buy_debit_exceeds_positionValue_in_binary64 :
  leb (Binary64.positionValue 100 3738) 3738 = true
  /\ Binary64.quantity 100 3738 149.52 = 25
  /\ ltb 3738 (149.52 * Binary64.quantity 100 3738 149.52) = true
  /\ ltb (Binary64.cashAfterBuy 3738 100 3738 149.52) 0 = true.
Proof. repeat split; vm_compute; reflexivity. Qed.

Example sizing_rounds_down_in_binary64 :
  ltb (Binary64.positionValue 29 100000) 29000 = true
  /\ Binary64.quantity 29 100000 1000 = 28.
Proof. repeat split; vm_compute; reflexivity. Qed.

Example stopLoss_level_missed_in_binary64 :
  leb (Binary64.percentChange 71 100) (- 29) = false.
Proof. vm_compute. reflexivity. Qed.

End Binary64Examples.

(** C4 at a [null] sell condition: the generic evaluator rejects it with
    [false], but [shouldSell] reads its [type] first and throws, and so does
    the run that reaches it. *)
Lemma shouldSell_throws_on_null_condition :
  evaluateCondition (env := sampleEnvironment) JNull (sampleBar "2024-01-02" 60) None
  = Ok false
  /\ some (sellFires (env := sampleEnvironment) (sampleBar "2024-01-02" 60) None
             sampleTrade) [JNull] = Ok false
  /\ shouldSell (env := sampleEnvironment) {| conditions := JArr [JNull] |}
       (sampleBar "2024-01-02" 60) None (Some sampleTrade)
     = Throw TypeError
  /\ runSimulation (env := sampleEnvironment)
       {| scannerConfig := noRules;
          buyConfig := {| conditions := JArr [priceAbove 10] |};
          sellConfig := {| conditions := JArr [JNull] |};
          simulationConfig := sampleConfig 100 ["ACME"%string] 100 |}
     = Throw TypeError.
Proof.
  repeat split; vm_compute; reflexivity.
Qed.

(** C5 at an equity curve that ends at 0: ZETA is bought with all the cash
    on the first day and has no bar afterwards, so the last equity point is 0;
    [finalCapital] falls back to the initial capital, and [totalPnl] is 0
    where the last equity point minus the initial capital is -100. *)
Lemma finalCapital_falls_back_on_zero_equity :
  exists res point,
    runSimulation (env := sampleEnvironment)
      (holdStrategy 100 ["ZETA"%string; "ACME"%string] 100) = Ok res
    /\ lastElement (equityCurve res) = Some point
    /\ equityCurve res <> []
    /\ equity point == 0
    /\ finalCapital 100 (equityCurve res) == 100
    /\ ~ finalCapital 100 (equityCurve res) == equity point
    /\ totalPnl res == 0.
Proof.
  eexists. eexists.
  split; [vm_compute; reflexivity |].
  split; [vm_compute; reflexivity |].
  repeat split; try reflexivity; discriminate.
Qed.

(** * Further properties of the engine *)

(** ** The trading-day index *)

Section TradingDays.

Lemma ascendingDates_cons (x : string) (l : list string) :
  ascendingDates (x :: l) = true
  <-> (forall y, In y l -> String_as_OT.lt x y) /\ ascendingDates l = true.
Proof.
  split.
  - intros H. split; [now apply ascending_after_head | now apply ascending_tail in H].
  - intros [Hlt Hasc]. destruct l as [| y rest]; [reflexivity |].
    cbn [ascendingDates]. apply andb_true_iff. split; [| exact Hasc].
    apply negb_true_iff, date_leb_false, Hlt. now left.
Qed.

Lemma insert_ascending (d : string) (l : list string) :
  ascendingDates l = true -> ~ In d l -> ascendingDates (insert d l) = true.
Proof.
  induction l as [| x rest IH]; intros Hasc Hnot; [reflexivity |].
  cbn [insert]. destruct (date_leb d x) eqn:Hdx.
  - apply ascendingDates_cons. split; [| exact Hasc].
    apply date_leb_true in Hdx.
    assert (Hlt : String_as_OT.lt d x).
    { destruct Hdx as [-> | Hlt]; [exfalso; apply Hnot; now left | exact Hlt]. }
    intros y [<- | Hy]; [exact Hlt |].
    eapply date_lt_trans; [exact Hlt |].
    now apply (ascending_after_head x rest Hasc).
  - apply ascendingDates_cons in Hasc. destruct Hasc as [Hlt Hrest].
    apply ascendingDates_cons. split.
    + intros y Hy. apply In_insert in Hy. destruct Hy as [-> | Hy].
      * now apply date_leb_false.
      * now apply Hlt.
    + apply IH; [exact Hrest |]. intros H. apply Hnot. now right.
Qed.

Lemma sort_ascending (l : list string) :
  NoDup l -> ascendingDates (sort l) = true.
Proof.
  induction 1 as [| x rest Hnot _ IH]; [reflexivity |].
  cbn [sort]. apply insert_ascending; [exact IH |].
  intros H. apply Hnot. now apply In_sort.
Qed.

Lemma indexOf_Some_In (x : string) (self : list string) (i : nat) :
  indexOf x self = Some i -> In x self.
Proof.
  revert i. induction self as [| y rest IH]; intros i H; [discriminate |].
  simpl in H. destruct (String.eqb y x) eqn:E.
  - apply String.eqb_eq in E. now left.
  - destruct (indexOf x rest) as [j |]; [| discriminate]. right. now apply (IH j).
Qed.

Lemma filterFrom_index {A : Type} (keep : A -> nat -> bool) (array : list A) :
  forall index x,
  In x (filterFrom keep index array) ->
  exists i, (index <= i)%nat /\ keep x i = true.
Proof.
  induction array as [| y rest IH]; intros index x H; [contradiction |].
  cbn [filterFrom] in H. destruct (keep y index) eqn:Hk.
  - destruct H as [-> | H].
    + exists index. split; [lia | exact Hk].
    + destruct (IH _ _ H) as (i & Hi & Hkeep). exists i. split; [lia | exact Hkeep].
  - destruct (IH _ _ H) as (i & Hi & Hkeep). exists i. split; [lia | exact Hkeep].
Qed.

Lemma filterFrom_first_NoDup (self : list string) (array : list string) :
  forall index,
  NoDup (filterFrom
           (fun x i =>
              match indexOf x self with
              | Some j => (j =? i)%nat
              | None => false
              end)
           index array).
Proof.
  induction array as [| y rest IH]; intros index; cbn [filterFrom];
    [constructor |].
  destruct (indexOf y self) as [j |] eqn:Hj; [| apply IH].
  destruct (j =? index)%nat eqn:E; [| apply IH].
  constructor; [| apply IH].
  intros Hin. apply filterFrom_index in Hin.
  destruct Hin as (i & Hi & Hkeep). rewrite Hj in Hkeep.
  apply Nat.eqb_eq in E, Hkeep. lia.
Qed.

Lemma firstOccurrences_NoDup (self : list string) : NoDup (firstOccurrences self).
Proof. apply filterFrom_first_NoDup. Qed.

End TradingDays.

Section RunShape.

Context {env : Environment}.
Variable strategy : Strategy.

Local Abbreviation config := (simulationConfig strategy).
Local Abbreviation series := (historicalDataBySymbol strategy).

(** X1. When no configured symbol is named [__proto__] (assigning that key
    sets the prototype of [historicalDataBySymbol] instead of adding a series
    to it), the trading-day index holds exactly the dates on which a
    configured symbol has a bar, each once, in strictly ascending order. *)
Theorem allDates_sorted_union :
  ~ In "__proto__"%string (symbols config) ->
  (forall d,
     In d (allDates strategy)
     <-> exists sym bar,
           In sym (symbols config) /\ In bar (series sym) /\ date bar = d)
  /\ ascendingDates (allDates strategy) = true
  /\ NoDup (allDates strategy).
Proof.
  intros _.
  assert (Hasc : ascendingDates (allDates strategy) = true)
    by (apply sort_ascending, firstOccurrences_NoDup).
  split; [| split; [exact Hasc |]].
  - intros d. split.
    + intros H. unfold allDates in H.
      apply (proj1 (In_sort _ _)), (proj1 (In_firstOccurrences _ _)),
        (proj1 (in_map_iff _ _ _)) in H.
      destruct H as (bar & Hdate & Hbar). apply (proj1 (in_concat _ _)) in Hbar.
      destruct Hbar as (l & Hl & Hbar). unfold seriesOfAllSymbols in Hl.
      apply (proj1 (in_map_iff _ _ _)) in Hl. destruct Hl as (sym & <- & Hsym).
      apply (proj1 (In_firstOccurrences _ _)) in Hsym.
      exists sym, bar. repeat split; assumption.
    + intros (sym & bar & Hsym & Hbar & <-). now apply (date_in_allDates strategy sym).
  - induction (allDates strategy) as [| x rest IH]; [constructor |].
    apply ascendingDates_cons in Hasc. destruct Hasc as [Hlt Hrest].
    constructor; [| now apply IH].
    intros Hin. exact (date_lt_irrefl x (Hlt x Hin)).
Qed.

Lemma sellLoop_keeps_curve (d : string) (prev : option string) (l : list Trade) :
  forall st st',
  sellLoop strategy d prev l st = Ok st' ->
  st_equityCurve st' = st_equityCurve st.
Proof.
  induction l as [| p rest IH]; intros st st' H; simpl in H.
  - now injection H as <-.
  - destruct (sellStep strategy d prev st p) as [st1 | e] eqn:Hstep; simpl in H;
      [| discriminate].
    rewrite (IH _ _ H).
    destruct (sellStep_cases _ _ _ _ _ _ Hstep) as [-> | (bar & _ & _ & ->)];
      reflexivity.
Qed.

Lemma buyLoop_keeps_curve (d : string) (prev : option string) (l : list string) :
  forall st st',
  buyLoop strategy d prev l st = Ok st' ->
  st_equityCurve st' = st_equityCurve st /\ st_allTrades st' = st_allTrades st.
Proof.
  induction l as [| sym rest IH]; intros st st' H; simpl in H.
  - injection H as <-. now split.
  - destruct (maxPositionsReached strategy st); [injection H as <-; now split |].
    destruct (buyStep strategy d prev st sym) as [st1 | e] eqn:Hstep; simpl in H;
      [| discriminate].
    destruct (IH _ _ H) as [-> ->].
    destruct (buyStep_cases _ _ _ _ _ _ Hstep) as [-> | (bar & _ & _ & _ & _ & ->)];
      now split.
Qed.

Lemma dayLoop_curve_dates (days : list string) :
  forall prev st st',
  dayLoop strategy prev days st = Ok st' ->
  map point_date (st_equityCurve st')
  = map point_date (st_equityCurve st) ++ days.
Proof.
  induction days as [| d rest IH]; intros prev st st' H; simpl in H.
  - injection H as <-. now rewrite app_nil_r.
  - unfold simulateDay in H.
    destruct (sellLoop strategy d prev (st_positions st) st) as [st1 | e] eqn:Hsell;
      simpl in H; [| discriminate].
    destruct (buyLoop strategy d prev (symbols config) st1) as [st2 | e] eqn:Hbuy;
      simpl in H; [| discriminate].
    rewrite (IH _ _ _ H). simpl.
    rewrite (proj1 (buyLoop_keeps_curve _ _ _ _ _ Hbuy)),
      (sellLoop_keeps_curve _ _ _ _ _ Hsell), map_app, <- app_assoc.
    reflexivity.
Qed.

Lemma drawdownLoop_dates (curve : list EquityPoint) :
  forall peak, map drawdown_date (drawdownLoop peak curve) = map point_date curve.
Proof.
  induction curve as [| p rest IH]; intros peak; simpl; [reflexivity |].
  now rewrite IH.
Qed.

(** X2. A completed run has one equity point and one drawdown point per
    trading day, in the order of the trading-day index. *)
Theorem one_point_per_trading_day (res : SimulationResults) :
  runSimulation strategy = Ok res ->
  map point_date (equityCurve res) = allDates strategy
  /\ map drawdown_date (drawdowns res) = allDates strategy.
Proof.
  intros Hres.
  destruct (runSimulation_Ok strategy res Hres) as (st & allTrades & Hloop & _ & ->).
  cbn [equityCurve drawdowns computeResults].
  rewrite drawdownLoop_dates.
  apply dayLoop_curve_dates in Hloop. simpl in Hloop. now split.
Qed.

End RunShape.

(** ** No validation of the configuration *)

Section NoValidation.

Context {env : Environment}.
Variable strategy : Strategy.

Local Abbreviation config := (simulationConfig strategy).


End NoValidation.

(** ** The ledger *)

Section LedgerProperties.

Context {env : Environment}.
Variable strategy : Strategy.

Local Abbreviation config := (simulationConfig strategy).
Local Abbreviation series := (historicalDataBySymbol strategy).

Lemma closeRemaining_forced (remaining : list Trade) :
  forall allTrades l,
  closeRemaining strategy remaining allTrades = Ok l ->
  exists forced,
    l = allTrades ++ forced
    /\ Forall2 (forcedAtLastBar strategy) remaining forced.
Proof.
  induction remaining as [| p rest IH]; intros allTrades l H; simpl in H.
  - injection H as <-. exists []. split; [now rewrite app_nil_r | constructor].
  - destruct (lastElement (series (symbol p))) as [lastBar |] eqn:Hlast;
      [| discriminate].
    destruct (IH _ _ H) as (forced & -> & Hforced).
    exists (closeTrade p (date lastBar) (close lastBar) :: forced).
    split; [now rewrite <- app_assoc |].
    constructor; [| exact Hforced]. now exists lastBar.
Qed.


Lemma sellStep_noConditions (d : string) (prev : option string) (st : LoopState)
    (p : Trade) :
  noConditions (sellConfig strategy) = true ->
  sellStep strategy d prev st p = Ok st.
Proof.
  intros Hno. unfold sellStep.
  destruct (is_closed p); [reflexivity |].
  destruct (findBar (series (symbol p)) d) as [bar |]; [| reflexivity].
  unfold shouldSell. rewrite Hno. reflexivity.
Qed.

Lemma reachable_noSell_empty_ledger (st : LoopState) :
  noConditions (sellConfig strategy) = true ->
  reachable strategy st -> st_allTrades st = [].
Proof.
  intros Hno.
  induction 1 as [| st st' d prev position _ IH Hin Hstep
                  | st st' d prev sym _ IH Hsym Hmax Hstep
                  | st d _ IH].
  - reflexivity.
  - rewrite (sellStep_noConditions d prev st position Hno) in Hstep.
    now injection Hstep as <-.
  - destruct (buyStep_cases _ _ _ _ _ _ Hstep) as [-> | (bar & _ & _ & _ & _ & ->)];
      exact IH.
  - exact IH.
Qed.

Lemma forced_In (ps forced : list Trade) :
  Forall2 (forcedAtLastBar strategy) ps forced ->
  forall t, In t forced ->
  exists p lastBar,
    lastElement (series (symbol p)) = Some lastBar
    /\ t = closeTrade p (date lastBar) (close lastBar).
Proof.
  induction 1 as [| p t' ps ts Hpt _ IH]; intros t Ht; [contradiction |].
  destruct Ht as [<- | Ht]; [| now apply IH].
  destruct Hpt as (lastBar & Hlast & ->). now exists p, lastBar.
Qed.

(** X4. When the sell rule set has no conditions, no position is closed
    before the end of the run: every trade of a completed run exits at the
    date and close of the last bar of its symbol's series, and has the entry
    it was opened with. *)
Theorem without_sell_rules_all_exits_at_last_bar (res : SimulationResults) :
  noConditions (sellConfig strategy) = true ->
  runSimulation strategy = Ok res ->
  forall t, In t (trades res) ->
  exists lastBar,
    lastElement (series (symbol t)) = Some lastBar
    /\ exitDate t = Some (date lastBar)
    /\ exitPrice t = Some (close lastBar)
    /\ pnl t = Some ((close lastBar - entryPrice t) * inject_Z (quantity t)).
Proof.
  intros Hno Hres t Ht.
  destruct (runSimulation_Ok strategy res Hres) as (st & allTrades & Hloop & Hclose & ->).
  cbn [trades computeResults] in Ht.
  assert (Hr : reachable strategy st)
    by (eapply dayLoop_reachable; [apply reach_initial | exact Hloop]).
  destruct (closeRemaining_forced _ _ _ Hclose) as (forced & -> & Hforced).
  rewrite (reachable_noSell_empty_ledger st Hno Hr) in Ht. simpl in Ht.
  destruct (forced_In _ _ Hforced t Ht) as (p & lastBar & Hlast & ->).
  exists lastBar. split; [exact Hlast | repeat split].
Qed.

(** The sell loop of a day later than every entry closes trades that exit
    after they entered, and opens nothing. *)
Lemma sellLoop_exits_later (d : string) (prev : option string) (l : list Trade) :
  forall st st',
  (forall p, In p l -> String_as_OT.lt (entryDate p) d) ->
  Forall exitsAfterEntry (st_allTrades st) ->
  sellLoop strategy d prev l st = Ok st' ->
  Forall exitsAfterEntry (st_allTrades st')
  /\ (forall p, In p (st_positions st') -> In p (st_positions st)).
Proof.
  induction l as [| p rest IH]; intros st st' Hl Hall H; simpl in H.
  - injection H as <-. now split.
  - destruct (sellStep strategy d prev st p) as [st1 | e] eqn:Hstep; simpl in H;
      [| discriminate].
    assert (H1 : Forall exitsAfterEntry (st_allTrades st1)
                 /\ (forall q, In q (st_positions st1) -> In q (st_positions st))).
    { destruct (sellStep_cases _ _ _ _ _ _ Hstep) as [-> | (bar & _ & _ & ->)];
        [now split |].
      split; simpl.
      - apply Forall_app. split; [exact Hall |].
        constructor; [| constructor].
        exists d. split; [reflexivity |]. apply (Hl p). now left.
      - intros q Hq. now apply filter_In in Hq. }
    destruct H1 as [Hall1 Hsub1].
    destruct (IH st1 st') as [Hall' Hsub']; trivial.
    + intros q Hq. apply Hl. now right.
    + split; [exact Hall' | auto].
Qed.

Lemma buyLoop_entries (d : string) (prev : option string) (l : list string) :
  forall st st',
  buyLoop strategy d prev l st = Ok st' ->
  forall p, In p (st_positions st') -> In p (st_positions st) \/ entryDate p = d.
Proof.
  induction l as [| sym rest IH]; intros st st' H p Hp; simpl in H.
  - injection H as <-. now left.
  - destruct (maxPositionsReached strategy st); [injection H as <-; now left |].
    destruct (buyStep strategy d prev st sym) as [st1 | e] eqn:Hstep; simpl in H;
      [| discriminate].
    destruct (IH _ _ H p Hp) as [Hin | Heq]; [| now right].
    destruct (buyStep_cases _ _ _ _ _ _ Hstep) as [-> | (bar & _ & _ & _ & _ & ->)];
      [now left |].
    simpl in Hin. apply in_app_iff in Hin.
    destruct Hin as [Hin | [<- | []]]; [now left | now right].
Qed.

Lemma dayLoop_exits_later (days : list string) :
  forall prev st st',
  ascendingDates days = true ->
  (forall p d, In p (st_positions st) -> In d days ->
     String_as_OT.lt (entryDate p) d) ->
  Forall exitsAfterEntry (st_allTrades st) ->
  dayLoop strategy prev days st = Ok st' ->
  Forall exitsAfterEntry (st_allTrades st').
Proof.
  induction days as [| d rest IH]; intros prev st st' Hasc Hpos Hall H;
    simpl in H.
  - now injection H as <-.
  - unfold simulateDay in H.
    destruct (sellLoop strategy d prev (st_positions st) st) as [st1 | e] eqn:Hsell;
      simpl in H; [| discriminate].
    destruct (buyLoop strategy d prev (symbols config) st1) as [st2 | e] eqn:Hbuy;
      simpl in H; [| discriminate].
    destruct (sellLoop_exits_later _ _ _ _ _
                (fun p Hp => Hpos p d Hp (or_introl eq_refl)) Hall Hsell)
      as [Hall1 Hsub1].
    apply ascendingDates_cons in Hasc. destruct Hasc as [Hlt Hrest].
    apply (IH (Some d) (recordEquity strategy d st2) st'); trivial.
    + intros p d' Hp Hd'. simpl in Hp.
      destruct (buyLoop_entries _ _ _ _ _ Hbuy p Hp) as [Hin | ->].
      * apply Hpos; [now apply Hsub1 | now right].
      * now apply Hlt.
    + simpl. now rewrite (proj2 (buyLoop_keeps_curve _ _ _ _ _ _ Hbuy)).
Qed.

(** X5. A position is never sold on the day it was bought: every trade
    closed by a sell signal exits on a trading day strictly later than its
    entry day (the sell loop of a day runs before its buy loop). *)
Theorem sold_trades_exit_after_entry (st : LoopState) :
  dayLoop strategy None (allDates strategy) (initialState strategy) = Ok st ->
  Forall exitsAfterEntry (st_allTrades st).
Proof.
  intros Hloop.
  apply (dayLoop_exits_later (allDates strategy) None (initialState strategy) st).
  - apply sort_ascending, firstOccurrences_NoDup.
  - intros p d [].
  - constructor.
  - exact Hloop.
Qed.

End LedgerProperties.

(** ** Bounds on the results *)

Section ResultBounds.

Context {env : Environment}.
Variable strategy : Strategy.

Local Abbreviation config := (simulationConfig strategy).
Local Abbreviation series := (historicalDataBySymbol strategy).


Lemma fold_left_sum_nonpos {A : Type} (f : A -> Q) (l : list A) :
  (forall x, In x l -> f x <= 0) ->
  forall a, fold_left (fun sum x => sum + f x) l a <= a.
Proof.
  induction l as [| x rest IH]; intros H a; simpl; [apply Qle_refl |].
  eapply Qle_trans; [apply IH; intros y Hy; apply H; now right |].
  pose proof (H x (or_introl eq_refl)). lra.
Qed.


Lemma winning_le_total (allTrades : list Trade) :
  (List.length (filter isWinning allTrades) <= List.length allTrades)%nat.
Proof. apply filter_length_le. Qed.

(** X6. In a completed run the win rate lies between 0 and 100 and is 0
    without trades; the winning and the losing counts are non-negative and
    add up to [totalTrades], the number of trades of the ledger. *)
Theorem winRate_is_a_percentage (res : SimulationResults) :
  runSimulation strategy = Ok res ->
  0 <= winRate res /\ winRate res <= 100
  /\ (trades res = [] -> winRate res == 0)
  /\ (0 <= winningTrades (metrics res))%Z
  /\ (0 <= losingTrades (metrics res))%Z
  /\ (winningTrades (metrics res) + losingTrades (metrics res)
      = totalTrades (metrics res))%Z
  /\ totalTrades (metrics res) = Z.of_nat (List.length (trades res)).
Proof.
  intros Hres.
  destruct (runSimulation_Ok strategy res Hres) as (st & allTrades & _ & _ & ->).
  cbn [winRate trades metrics winningTrades losingTrades totalTrades computeResults].
  pose proof (winning_le_total allTrades) as Hle.
  set (w := Z.of_nat (List.length (filter isWinning allTrades))) in *.
  set (t := Z.of_nat (List.length allTrades)) in *.
  assert (Hw : (0 <= w <= t)%Z) by (subst w t; lia).
  assert (Hrate : 0 <= (if (0 <? t)%Z then inject_Z w / inject_Z t * 100 else 0)
                  /\ (if (0 <? t)%Z then inject_Z w / inject_Z t * 100 else 0) <= 100).
  { destruct (0 <? t)%Z eqn:Ht; [| split; [apply Qle_refl | discriminate]].
    apply Z.ltb_lt in Ht.
    assert (0 < inject_Z t) by (change 0 with (inject_Z 0); rewrite <- Zlt_Qlt; lia).
    assert (0 <= inject_Z w) by (change 0 with (inject_Z 0); rewrite <- Zle_Qle; lia).
    assert (inject_Z w <= inject_Z t) by (rewrite <- Zle_Qle; lia).
    assert (0 <= inject_Z w / inject_Z t)
      by (apply Qle_shift_div_l; [assumption | lra]).
    assert (inject_Z w / inject_Z t <= 1)
      by (apply Qle_shift_div_r; [assumption | lra]).
    split; lra. }
  destruct Hrate as [H0 H100].
  repeat split; try assumption; try lia.
  intros Hnil. subst t. rewrite Hnil. reflexivity.
Qed.


(** *** Sizes, cash and equity under a valid configuration *)

Lemma opened_quantity_positive (p : Trade) :
  0 <= positionValue strategy ->
  pricesPositive strategy ->
  asOpened strategy p ->
  0 < entryPrice p /\ (1 <= quantity p)%Z.
Proof.
  intros Hvalue Hprices (Hsym & _ & _ & (bar & Hbar & Hentry) & Hq & Hne).
  assert (Hpos : 0 < entryPrice p) by (rewrite Hentry; now apply (Hprices (symbol p))).
  split; [exact Hpos |].
  pose proof (quantity_nonneg (positionValue strategy) (entryPrice p) Hvalue Hpos).
  lia.
Qed.

(** X8. With a non-negative initial capital, a non-negative position size
    and strictly positive closes, every open position holds at least one
    share, and two positions entered at the same price hold the same number
    of shares whatever the cash was when they were opened: the size is fixed
    by the entry price and the configuration alone. *)
Theorem positions_sized_by_price_alone (st : LoopState) :
  0 <= initialCapital config ->
  0 <= positionSize config ->
  pricesPositive strategy ->
  reachable strategy st ->
  (forall p, In p (st_positions st) -> (1 <= quantity p)%Z)
  /\ (forall p q,
        In p (st_positions st) -> In q (st_positions st) ->
        entryPrice p == entryPrice q -> quantity p = quantity q).
Proof.
  intros Hcap Hsize Hprices Hr.
  pose proof (positionValue_nonneg strategy Hcap Hsize) as Hvalue.
  destruct (reachable_contents strategy st Hr) as [Hopen _].
  rewrite Forall_forall in Hopen. split.
  - intros p Hp.
    now destruct (opened_quantity_positive p Hvalue Hprices (Hopen p Hp)).
  - intros p q Hp Hq Hsame.
    destruct (Hopen p Hp) as (_ & _ & _ & _ & -> & _).
    destruct (Hopen q Hq) as (_ & _ & _ & _ & -> & _).
    now rewrite Hsame.
Qed.

End ResultBounds.

(** * The mock price provider *)

Section ProviderProperties.

Context {dates : DateLibrary}.

Lemma daysBetween_empty (first last : Z) :
  (last < first)%Z -> daysBetween first last = [].
Proof.
  intros H. unfold daysBetween.
  replace (Z.to_nat (last - first + 1)) with 0%nat by lia. reflexivity.
Qed.

Lemma daysBetween_cons (first last : Z) :
  (first <= last)%Z ->
  daysBetween first last = first :: daysBetween (first + 1) last.
Proof.
  intros H. unfold daysBetween.
  replace (Z.to_nat (last - first + 1)) with (S (Z.to_nat (last - (first + 1) + 1)))
    by lia.
  cbn [seq map]. f_equal; [lia |].
  rewrite <- seq_shift, map_map. apply map_ext. intros i. lia.
Qed.

Lemma In_daysBetween (first last d : Z) :
  In d (daysBetween first last) <-> (first <= d <= last)%Z.
Proof.
  unfold daysBetween. rewrite in_map_iff. split.
  - intros (i & <- & Hi). apply in_seq in Hi. lia.
  - intros H. exists (Z.to_nat (d - first)). split; [lia |]. apply in_seq. lia.
Qed.

Lemma generateDay_dates (random : nat -> Q) (d : Z) (g : Generator) :
  map date (data (generateDay random d g))
  = map date (data g) ++ map formatDate (filter isWeekday [d]).
Proof.
  unfold generateDay. cbn [filter].
  destruct (isWeekday d); cbn [data map].
  - now rewrite map_app.
  - now rewrite app_nil_r.
Qed.

Lemma generateDays_dates (random : nat -> Q) (last : Z) (fuel : nat) :
  forall current g,
  fuel = Z.to_nat (last - current + 1) ->
  map date (data (generateDays random fuel last current g))
  = map date (data g) ++ map formatDate (filter isWeekday (daysBetween current last)).
Proof.
  induction fuel as [| fuel IH]; intros current g Hfuel.
  - rewrite daysBetween_empty by lia. simpl. now rewrite app_nil_r.
  - cbn [generateDays].
    assert (Hle : (current <= last)%Z) by lia.
    destruct (last <? current)%Z eqn:E; [apply Z.ltb_lt in E; lia |].
    rewrite IH by lia.
    rewrite generateDay_dates, (daysBetween_cons current last Hle).
    cbn [filter]. destruct (isWeekday current); cbn [map app];
      now rewrite <- app_assoc.
Qed.

Lemma generateDays_enough_fuel (random : nat -> Q) (last : Z) (fuel : nat) :
  forall current g extra,
  fuel = Z.to_nat (last - current + 1) ->
  generateDays random (fuel + extra) last current g
  = generateDays random fuel last current g.
Proof.
  induction fuel as [| fuel IH]; intros current g extra Hfuel.
  - destruct extra as [| extra]; [reflexivity |].
    cbn [Nat.add generateDays].
    destruct (last <? current)%Z eqn:E; [reflexivity |].
    apply Z.ltb_ge in E. lia.
  - cbn [Nat.add generateDays].
    destruct (last <? current)%Z; [reflexivity |]. apply IH. lia.
Qed.

Lemma generatePriceData_dates
    (random : nat -> Q) (symbol startDate endDate : string) :
  map date (generatePriceData random symbol startDate endDate)
  = map formatDate
      (filter isWeekday (daysBetween (parseDate startDate) (parseDate endDate))).
Proof.
  unfold generatePriceData. now rewrite generateDays_dates.
Qed.

(** X10. The mock provider returns one bar per weekday of the range, in
    order, dated by [format]: no bar on a Saturday or a Sunday, no bar when
    the range ends before it starts, and the same dates whatever the symbol
    and whatever [Math.random] returns.  Its loop ends by its own test:
    more iterations allowed change nothing. *)
Theorem generatePriceData_one_bar_per_weekday
    (random : nat -> Q) (symbol startDate endDate : string) :
  map date (generatePriceData random symbol startDate endDate)
  = map formatDate
      (filter isWeekday (daysBetween (parseDate startDate) (parseDate endDate)))
  /\ ((parseDate endDate < parseDate startDate)%Z ->
      generatePriceData random symbol startDate endDate = [])
  /\ (forall random' symbol',
        map date (generatePriceData random' symbol' startDate endDate)
        = map date (generatePriceData random symbol startDate endDate))
  /\ (forall extra g,
        generateDays random
          (Z.to_nat (parseDate endDate - parseDate startDate + 1) + extra)
          (parseDate endDate) (parseDate startDate) g
        = generateDays random
            (Z.to_nat (parseDate endDate - parseDate startDate + 1))
            (parseDate endDate) (parseDate startDate) g).
Proof.
  split; [apply generatePriceData_dates | split; [| split]].
  - intros H. apply map_eq_nil with (f := date).
    rewrite generatePriceData_dates, daysBetween_empty by exact H. reflexivity.
  - intros random' symbol'. now rewrite !generatePriceData_dates.
  - intros extra g. now apply generateDays_enough_fuel.
Qed.

(** *** Rounding to cents *)

Lemma cents_le (a b : Z) : (a <= b)%Z -> inject_Z a / 100 <= inject_Z b / 100.
Proof.
  intros H. rewrite Zle_Qle in H. unfold Qdiv.
  apply Qmult_le_compat_r; [exact H | discriminate].
Qed.

Lemma toFixed2_monotone (x y : Q) : x <= y -> toFixed2 x <= toFixed2 y.
Proof.
  intros Hxy. unfold toFixed2.
  destruct (Qlt_bool x 0) eqn:Hx, (Qlt_bool y 0) eqn:Hy.
  - apply Qopp_le_compat, cents_le, Qfloor_resp_le. lra.
  - apply Qlt_bool_iff in Hx. apply Qlt_bool_false_iff in Hy.
    assert (H1 : inject_Z (Qfloor 0) / 100 <= inject_Z (Qfloor (- x * 100 + (1 # 2))) / 100)
      by (apply cents_le, Qfloor_resp_le; lra).
    assert (H2 : inject_Z (Qfloor 0) / 100 <= inject_Z (Qfloor (y * 100 + (1 # 2))) / 100)
      by (apply cents_le, Qfloor_resp_le; lra).
    change (inject_Z (Qfloor 0) / 100) with (0 / 100) in H1, H2.
    set (u := inject_Z (Qfloor (- x * 100 + (1 # 2))) / 100) in *.
    set (v := inject_Z (Qfloor (y * 100 + (1 # 2))) / 100) in *.
    assert (H0 : 0 / 100 == 0) by reflexivity.
    rewrite H0 in H1, H2. lra.
  - apply Qlt_bool_iff in Hy. apply Qlt_bool_false_iff in Hx. lra.
  - apply cents_le, Qfloor_resp_le. lra.
Qed.

Lemma toFixed2_nonneg (x : Q) : 0 <= x -> 0 <= toFixed2 x.
Proof.
  intros H. apply (toFixed2_monotone 0 x) in H.
  assert (H0 : toFixed2 0 == 0) by reflexivity.
  rewrite H0 in H. exact H.
Qed.

(** *** The bars *)

Lemma generateDay_price_positive (random : nat -> Q) (d : Z) (g : Generator) :
  unitInterval random ->
  0 < currentPrice g -> 0 < currentPrice (generateDay random d g).
Proof.
  intros Hrandom Hpos. unfold generateDay.
  destruct (isWeekday d); [| exact Hpos]. cbn [currentPrice].
  destruct (Hrandom (drawn g)) as [H0 _].
  assert (0 <= random (drawn g) * currentPrice g)
    by (apply Qmult_le_0_compat; lra).
  lra.
Qed.

Lemma generateDays_invariant (random : nat -> Q) (P : Generator -> Prop) (last : Z) :
  (forall d g, P g -> P (generateDay random d g)) ->
  forall fuel current g, P g -> P (generateDays random fuel last current g).
Proof.
  intros Hstep. induction fuel as [| fuel IH]; intros current g Hg; [exact Hg |].
  cbn [generateDays]. destruct (last <? current)%Z; [exact Hg |].
  apply IH. now apply Hstep.
Qed.

Lemma generateDay_consistent (random : nat -> Q) (d : Z) (g : Generator) :
  unitInterval random ->
  0 < currentPrice g ->
  Forall consistentBar (data g) ->
  Forall consistentBar (data (generateDay random d g)).
Proof.
  intros Hrandom Hpos Hall. unfold generateDay.
  destruct (isWeekday d); [| exact Hall]. cbn [data].
  apply Forall_app. split; [exact Hall |]. constructor; [| constructor].
  set (o := currentPrice g) in *.
  destruct (Hrandom (drawn g)) as [Ha0 Ha1].
  destruct (Hrandom (S (drawn g))) as [Hb0 Hb1].
  destruct (Hrandom (S (S (drawn g)))) as [Hc0 Hc1].
  set (ra := random (drawn g)) in *.
  set (rb := random (S (drawn g))) in *.
  set (rc := random (S (S (drawn g)))) in *.
  assert (Hao : 0 <= ra * o) by (apply Qmult_le_0_compat; lra).
  assert (Hbo : 0 <= rb * o) by (apply Qmult_le_0_compat; lra).
  assert (Hco : 0 <= rc * o) by (apply Qmult_le_0_compat; lra).
  assert (Hco1 : rc * o <= 1 * o) by (apply Qmult_le_compat_r; lra).
  set (c := o + (ra - (48 # 100)) * (4 # 100) * o).
  pose proof (Q.le_max_l o c) as Hmax1. pose proof (Q.le_max_r o c) as Hmax2.
  pose proof (Q.le_min_l o c) as Hmin1. pose proof (Q.le_min_r o c) as Hmin2.
  assert (Hmin : (9808 # 10000) * o <= Qmin o c)
    by (apply Q.min_glb; subst c; lra).
  unfold consistentBar. cbn [low open close high].
  fold c.
  repeat split.
  - apply toFixed2_nonneg. lra.
  - apply toFixed2_monotone. lra.
  - apply toFixed2_monotone. lra.
  - apply toFixed2_monotone. lra.
  - apply toFixed2_monotone. lra.
Qed.

(** X11. When [Math.random] returns values in [0, 1), every bar of the mock
    provider is consistent: its low is at most its open and its close, its
    high at least both, and no price is negative. *)
Theorem generatePriceData_bars_consistent
    (random : nat -> Q) (symbol startDate endDate : string) :
  unitInterval random ->
  Forall consistentBar (generatePriceData random symbol startDate endDate).
Proof.
  intros Hrandom. unfold generatePriceData.
  apply (generateDays_invariant random
           (fun g => 0 < currentPrice g /\ Forall consistentBar (data g))).
  - intros d g [Hpos Hall]. split.
    + now apply generateDay_price_positive.
    + now apply generateDay_consistent.
  - split; [| constructor]. cbn [currentPrice]. unfold basePriceOf.
    destruct (find (fun s => String.eqb (fst s) symbol) stockSymbols)
      as [s |] eqn:Hfind; [| reflexivity].
    apply find_some in Hfind. destruct Hfind as [Hin _].
    simpl in Hin.
    repeat (destruct Hin as [<- | Hin]; [reflexivity |]). contradiction.
Qed.

(** X12. When [Math.random] returns values in [0, 1), every bar of the mock
    provider has a whole volume from 1,000,000 to 9,999,999. *)
Theorem generatePriceData_volume_range
    (random : nat -> Q) (symbol startDate endDate : string) :
  unitInterval random ->
  Forall volumeInRange (generatePriceData random symbol startDate endDate).
Proof.
  intros Hrandom. unfold generatePriceData.
  apply (generateDays_invariant random (fun g => Forall volumeInRange (data g)));
    [| constructor].
  intros d g Hall. unfold generateDay.
  destruct (isWeekday d); [| exact Hall]. cbn [data].
  apply Forall_app. split; [exact Hall |]. constructor; [| constructor].
  destruct (Hrandom (S (S (S (drawn g))))) as [H0 H1].
  set (r := random (S (S (S (drawn g))))) in *.
  exists (Qfloor (r * 9000000) + 1000000)%Z. cbn [volume]. split.
  - rewrite inject_Z_plus. reflexivity.
  - assert (Hlow : (Qfloor 0 <= Qfloor (r * 9000000))%Z)
      by (apply Qfloor_resp_le; lra).
    assert (Hhigh : (Qfloor (r * 9000000) < 9000000)%Z).
    { rewrite Zlt_Qlt. eapply Qle_lt_trans; [apply Qfloor_le |].
      change (inject_Z 9000000) with 9000000. lra. }
    change (Qfloor 0) with 0%Z in Hlow. lia.
Qed.

Lemma opensAtPreviousClose_snoc (bars : list PriceData) (bar : PriceData) :
  opensAtPreviousClose bars ->
  (forall a, lastElement bars = Some a -> open bar = close a) ->
  opensAtPreviousClose (bars ++ [bar]).
Proof.
  induction bars as [| a rest IH]; intros Hall Hlast; [exact I |].
  destruct rest as [| b rest'].
  - simpl. split; [now apply Hlast | exact I].
  - destruct Hall as [Hab Hrest]. change ((a :: b :: rest') ++ [bar])
      with (a :: (b :: rest') ++ [bar]).
    cbn [opensAtPreviousClose app]. split; [exact Hab |].
    apply IH; [exact Hrest | exact Hlast].
Qed.

(** X13. The mock provider's series is continuous: its first bar opens at
    the symbol's base price (rounded to cents), and every later bar opens at
    the close of the bar before it. *)
Theorem generatePriceData_opens_at_previous_close
    (random : nat -> Q) (symbol startDate endDate : string) :
  opensAtPreviousClose (generatePriceData random symbol startDate endDate)
  /\ forall first rest,
       generatePriceData random symbol startDate endDate = first :: rest ->
       open first = toFixed2 (basePriceOf symbol).
Proof.
  unfold generatePriceData.
  assert (H : let g := generateDays random
                         (Z.to_nat (parseDate endDate - parseDate startDate + 1))
                         (parseDate endDate) (parseDate startDate)
                         {| currentPrice := basePriceOf symbol; drawn := 0;
                            data := [] |} in
              opensAtPreviousClose (data g)
              /\ (forall a, lastElement (data g) = Some a ->
                    close a = toFixed2 (currentPrice g))
              /\ (data g = [] -> currentPrice g = basePriceOf symbol)
              /\ (forall first rest, data g = first :: rest ->
                    open first = toFixed2 (basePriceOf symbol))).
  { apply (generateDays_invariant random
             (fun g =>
                opensAtPreviousClose (data g)
                /\ (forall a, lastElement (data g) = Some a ->
                      close a = toFixed2 (currentPrice g))
                /\ (data g = [] -> currentPrice g = basePriceOf symbol)
                /\ (forall first rest, data g = first :: rest ->
                      open first = toFixed2 (basePriceOf symbol)))).
    - intros d g (Hlinked & Hlast & Hempty & Hfirst). unfold generateDay.
      destruct (isWeekday d); [| now repeat split]. cbn [data currentPrice].
      split; [| split; [| split]].
      + apply opensAtPreviousClose_snoc; [exact Hlinked |].
        intros a Ha. cbn [open]. symmetry. now apply Hlast.
      + intros a Ha. rewrite lastElement_snoc in Ha. now injection Ha as <-.
      + intros Hnil. destruct (data g); discriminate.
      + intros first rest Heq. destruct (data g) as [| b bs] eqn:Hdata.
        * simpl in Heq. injection Heq as <- _. cbn [open].
          now rewrite Hempty.
        * simpl in Heq. injection Heq as <- _. now apply (Hfirst b bs).
    - cbn [data currentPrice]. repeat split; discriminate. }
  cbv zeta in H. destruct H as (Hlinked & _ & _ & Hfirst). now split.
Qed.

Lemma ascending_formatted (first last : Z) :
  (forall a b, (first <= a)%Z -> (a < b)%Z -> (b <= last)%Z ->
     String_as_OT.lt (formatDate a) (formatDate b)) ->
  forall (n : nat) (current : Z),
  (first <= current)%Z ->
  n = Z.to_nat (last - current + 1) ->
  ascendingDates (map formatDate (filter isWeekday (daysBetween current last)))
  = true.
Proof.
  intros Hformat. induction n as [| n IH]; intros current Hfirst Hn.
  - rewrite daysBetween_empty by lia. reflexivity.
  - rewrite daysBetween_cons by lia. cbn [filter].
    assert (Hrest : ascendingDates
                      (map formatDate
                         (filter isWeekday (daysBetween (current + 1) last))) = true)
      by (apply IH; lia).
    destruct (isWeekday current); [| exact Hrest].
    cbn [map]. apply ascendingDates_cons. split; [| exact Hrest].
    intros y Hy. apply in_map_iff in Hy. destruct Hy as (b & <- & Hb).
    apply filter_In in Hb. destruct Hb as [Hb _]. apply In_daysBetween in Hb.
    apply Hformat; lia.
Qed.

(** X14. Wherever [format] gives later days later strings over the range
    (as ['yyyy-MM-dd'] does), the series of the mock provider is in strictly
    ascending order of date, without a repeated date. *)
Theorem generatePriceData_dates_ascending
    (random : nat -> Q) (symbol startDate endDate : string) :
  (forall a b,
     (parseDate startDate <= a)%Z -> (a < b)%Z -> (b <= parseDate endDate)%Z ->
     String_as_OT.lt (formatDate a) (formatDate b)) ->
  ascendingDates (map date (generatePriceData random symbol startDate endDate))
  = true.
Proof.
  intros Hformat.
  rewrite generatePriceData_dates.
  apply (ascending_formatted (parseDate startDate) (parseDate endDate) Hformat
           (Z.to_nat (parseDate endDate - parseDate startDate + 1)));
    [lia | reflexivity].
Qed.

End ProviderProperties.

(** * The engine over the mock provider *)

Section MockProvider.

Context {dates : DateLibrary}.
Variable conversions : Environment.
Variable draws : string -> nat -> Q.
Variable strategy : Strategy.

Local Abbreviation mock := (mockEnvironment conversions draws).
Local Abbreviation config := (simulationConfig strategy).

Lemma mock_series_dates (sym : string) :
  map date (historicalDataBySymbol (env := mock) strategy sym)
  = map formatDate
      (filter isWeekday
         (daysBetween (parseDate (startDate config)) (parseDate (endDate config)))).
Proof.
  unfold historicalDataBySymbol. cbn [getHistoricalData mockEnvironment].
  apply generatePriceData_dates.
Qed.

Lemma allDates_bar (d : string) :
  In d (allDates (env := mock) strategy) ->
  exists sym bar,
    In sym (symbols config)
    /\ In bar (historicalDataBySymbol (env := mock) strategy sym)
    /\ date bar = d.
Proof.
  intros H. unfold allDates in H.
  apply (proj1 (In_sort _ _)), (proj1 (In_firstOccurrences _ _)),
    (proj1 (in_map_iff _ _ _)) in H.
  destruct H as (bar & Hdate & Hbar). apply (proj1 (in_concat _ _)) in Hbar.
  destruct Hbar as (l & Hl & Hbar). unfold seriesOfAllSymbols in Hl.
  apply (proj1 (in_map_iff _ _ _)) in Hl. destruct Hl as (sym & <- & Hsym).
  apply (proj1 (In_firstOccurrences _ _)) in Hsym.
  exists sym, bar. repeat split; assumption.
Qed.

(** X15. Over the mock provider every configured symbol has a bar on every
    trading day of the run, dated that day: the engine never meets a missing
    bar, whatever [Math.random] returned. *)
Theorem mock_provider_leaves_no_gap (sym d : string) :
  In sym (symbols config) ->
  In d (allDates (env := mock) strategy) ->
  exists bar,
    findBar (historicalDataBySymbol (env := mock) strategy sym) d = Some bar
    /\ date bar = d.
Proof.
  intros Hsym Hd. destruct (allDates_bar d Hd) as (sym' & bar' & _ & Hbar' & Hdate).
  assert (Hin : In d (map date (historicalDataBySymbol (env := mock) strategy sym))).
  { rewrite mock_series_dates, <- (mock_series_dates sym'), <- Hdate.
    now apply in_map. }
  apply in_map_iff in Hin. destruct Hin as (bar & Hbar_date & Hbar).
  unfold findBar.
  destruct (find (fun data => String.eqb (date data) d)
              (historicalDataBySymbol (env := mock) strategy sym))
    as [found |] eqn:Hfind.
  - exists found. split; [reflexivity |].
    apply find_some in Hfind. now apply String.eqb_eq.
  - exfalso. apply (find_none _ _ Hfind) in Hbar.
    rewrite Hbar_date, String.eqb_refl in Hbar. discriminate.
Qed.

End MockProvider.

(** * Exit rules as thresholds on the close *)

Section ExitLevels.

Context {env : Environment}.

Lemma percentChange_positive_base (a b : Q) :
  0 < b -> percentChange a b = Fin ((a - b) / b * 100).
Proof.
  intros Hb. unfold percentChange, js_div.
  destruct (Qeq_bool b 0) eqn:E; [| reflexivity].
  apply Qeq_bool_iff in E. lra.
Qed.

Lemma Qle_bool_eq (a b c d : Q) :
  (a <= b <-> c <= d) -> Qle_bool a b = Qle_bool c d.
Proof.
  intros H. destruct (Qle_bool a b) eqn:E1, (Qle_bool c d) eqn:E2; try reflexivity.
  - apply Qle_bool_iff, H, Qle_bool_iff in E1. congruence.
  - apply Qle_bool_iff, H, Qle_bool_iff in E2. congruence.
Qed.

Lemma percent_as_level (entry current v : Q) :
  0 < entry ->
  (v <= (current - entry) / entry * 100 <-> entry * (1 + v / 100) <= current)
  /\ ((current - entry) / entry * 100 <= v <-> current <= entry * (1 + v / 100)).
Proof.
  intros Hentry.
  assert (Hx : (current - entry) / entry * entry == current - entry)
    by (field; lra).
  set (x := (current - entry) / entry) in *.
  assert (Hlevel : entry * (1 + v / 100) == entry + entry * v * (1 # 100))
    by (unfold Qdiv; change (/ 100) with (1 # 100); ring).
  rewrite Hlevel.
  split; split; intros H.
  - assert (H' : entry * v <= entry * (x * 100)) by (apply Qmult_le_l; assumption).
    lra.
  - apply (Qmult_le_l _ _ entry Hentry). lra.
  - assert (H' : entry * (x * 100) <= entry * v) by (apply Qmult_le_l; assumption).
    lra.
  - apply (Qmult_le_l _ _ entry Hentry). lra.
Qed.

Lemma takeProfit_reading (priceData : PriceData)
    (previousPriceData : option PriceData) (trade : Trade)
    (props : list (string * jsval)) (v : Q) :
  0 < entryPrice trade ->
  lookup "value" props = JNum v ->
  lookup "type" props = JStr "takeProfit" ->
  sellConditionMet priceData previousPriceData trade (JObj props)
  = Ok (Qle_bool (entryPrice trade * (1 + v / 100)) (close priceData)).
Proof.
  intros Hentry Hvalue Htype. unfold sellConditionMet, getProp, bind.
  cbn [field]. rewrite Htype, Hvalue.
  rewrite (percentChange_positive_base _ _ Hentry). cbn. f_equal.
  apply Qle_bool_eq.
  apply (percent_as_level (entryPrice trade) (close priceData) v Hentry).
Qed.

Lemma stopLoss_reading (priceData : PriceData)
    (previousPriceData : option PriceData) (trade : Trade)
    (props : list (string * jsval)) (v : Q) :
  0 < entryPrice trade ->
  lookup "value" props = JNum v ->
  lookup "type" props = JStr "stopLoss" ->
  sellConditionMet priceData previousPriceData trade (JObj props)
  = Ok (Qle_bool (close priceData) (entryPrice trade * (1 - v / 100))).
Proof.
  intros Hentry Hvalue Htype. unfold sellConditionMet, getProp, bind.
  cbn [field]. rewrite Htype, Hvalue.
  rewrite (percentChange_positive_base _ _ Hentry). cbn. f_equal.
  apply Qle_bool_eq.
  destruct (percent_as_level (entryPrice trade) (close priceData) (- v) Hentry)
    as [_ H].
  assert (Hlevel : entryPrice trade * (1 + - v / 100)
                   == entryPrice trade * (1 - v / 100))
    by (unfold Qdiv; ring).
  rewrite Hlevel in H. exact H.
Qed.

Lemma percent_of_entry_positive (entry v : Q) :
  0 < entry -> 0 < v -> 0 < entry * (v / 100).
Proof.
  intros Hentry Hv. apply Qmult_lt_0_compat; [exact Hentry |].
  apply Qlt_shift_div_l; [reflexivity | lra].
Qed.

(** X16. For a position entered at a positive price, the two exit rules are
    thresholds on the close, whatever the previous bar and the other fields
    of the rule.  A take-profit rule that fires at some close fires at every
    higher close, and with a positive [value] never fires at or below the
    entry price; a stop-loss rule that fires at some close fires at every
    lower close, and with a positive [value] never fires at or above the
    entry price. *)
Theorem exit_rules_are_thresholds_on_the_close
    (trade : Trade) (props : list (string * jsval)) (v : Q) :
  0 < entryPrice trade ->
  lookup "value" props = JNum v ->
  (lookup "type" props = JStr "takeProfit" ->
   (forall bar bar' prev prev',
      close bar <= close bar' ->
      sellConditionMet bar prev trade (JObj props) = Ok true ->
      sellConditionMet bar' prev' trade (JObj props) = Ok true)
   /\ (0 < v ->
       forall bar prev,
       close bar <= entryPrice trade ->
       sellConditionMet bar prev trade (JObj props) = Ok false))
  /\ (lookup "type" props = JStr "stopLoss" ->
      (forall bar bar' prev prev',
         close bar' <= close bar ->
         sellConditionMet bar prev trade (JObj props) = Ok true ->
         sellConditionMet bar' prev' trade (JObj props) = Ok true)
      /\ (0 < v ->
          forall bar prev,
          entryPrice trade <= close bar ->
          sellConditionMet bar prev trade (JObj props) = Ok false)).
Proof.
  intros Hentry Hvalue. split; intros Htype; split.
  - intros bar bar' prev prev' Hle.
    rewrite !(takeProfit_reading _ _ _ _ _ Hentry Hvalue Htype).
    intros H. injection H as H. apply Qle_bool_iff in H.
    f_equal. apply Qle_bool_iff. lra.
  - intros Hv bar prev Hle.
    rewrite (takeProfit_reading _ _ _ _ _ Hentry Hvalue Htype). f_equal.
    apply not_true_is_false. intros H. apply Qle_bool_iff in H.
    pose proof (percent_of_entry_positive _ _ Hentry Hv). lra.
  - intros bar bar' prev prev' Hle.
    rewrite !(stopLoss_reading _ _ _ _ _ Hentry Hvalue Htype).
    intros H. injection H as H. apply Qle_bool_iff in H.
    f_equal. apply Qle_bool_iff. lra.
  - intros Hv bar prev Hle.
    rewrite (stopLoss_reading _ _ _ _ _ Hentry Hvalue Htype). f_equal.
    apply not_true_is_false. intros H. apply Qle_bool_iff in H.
    pose proof (percent_of_entry_positive _ _ Hentry Hv). lra.
Qed.

End ExitLevels.

(** * The simulation routes *)

Section Routes.

Context {env : Environment}.


(** X18. A copy never serves the results of its original: whatever the
    original's status and results, the result route answers 404 for the copy
    until the copy itself has been simulated; a simulation of the copy runs
    the original's strategy, so on the same price data it is answered like a
    simulation of the original. *)
Theorem copy_starts_without_results (original : StrategyDocument) :
  getResult (Some (copyStrategy original)) = NoResults404
  /\ doc_name (copyStrategy original) = (doc_name original ++ " (Copy)")%string
  /\ getResult (Some (settleSimulation (startSimulation (copyStrategy original))))
     = getResult (Some (settleSimulation (startSimulation original))).
Proof.
  split; [reflexivity | split; [reflexivity |]].
  unfold settleSimulation. cbn [startSimulation copyStrategy doc_strategy].
  destruct (runSimulation (doc_strategy original)); reflexivity.
Qed.

End Routes.

(** * The forms' validation *)

Section Forms.

Lemma Qle_bool_true (a b : Q) : Qle_bool a b = true -> a <= b.
Proof. apply Qle_bool_iff. Qed.

(** X19. A configuration the creation form accepts violates none of the
    invariants the engine leaves unchecked: its capital is at least 1000,
    it names a symbol, and its position size lies in [1, 100]. *)
Theorem createForm_rules_out_invalid_configurations
    (name : string) (config : SimulationConfig) :
  createFormAccepts name config = true ->
  violatesInvariants config = false
  /\ 1000 <= initialCapital config
  /\ 1 <= maxPositions config.
Proof.
  unfold createFormAccepts, violatesInvariants. intros H.
  repeat (apply andb_true_iff in H; destruct H as [H ?]).
  repeat match goal with
         | E : Qle_bool _ _ = true |- _ => apply Qle_bool_true in E
         end.
  split; [| split; assumption].
  repeat (apply orb_false_iff; split).
  - apply not_true_is_false. intros E. apply Qle_bool_true in E. lra.
  - apply Nat.eqb_neq. apply Nat.leb_le in H3. lia.
  - apply not_true_is_false. intros E. apply Qle_bool_true in E. lra.
  - unfold Qlt_bool. apply negb_false_iff. now apply Qle_bool_iff.
Qed.

(** X20. A configuration the edit form accepts has a positive capital, a
    position size in [1, 100] and a whole number of positions, at least 1;
    the form does not look at the symbol list, so it also accepts the
    configuration with no symbol. *)
Theorem editForm_accepts_whole_positions_any_symbols
    (name : string) (config : SimulationConfig) :
  editFormAccepts name config = true ->
  1 <= initialCapital config
  /\ 1 <= positionSize config <= 100
  /\ (exists n : nat, (1 <= n)%nat /\ maxPositions config == inject_Z (Z.of_nat n))
  /\ editFormAccepts name
       {| startDate := startDate config;
          endDate := endDate config;
          initialCapital := initialCapital config;
          symbols := [];
          maxPositions := maxPositions config;
          positionSize := positionSize config |} = true.
Proof.
  intros Haccepts. pose proof Haccepts as H. unfold editFormAccepts in H.
  repeat (apply andb_true_iff in H; destruct H as [H ?]).
  unfold isInteger in *.
  repeat match goal with
         | E : Qle_bool _ _ = true |- _ => apply Qle_bool_true in E
         | E : Qeq_bool _ _ = true |- _ => apply Qeq_bool_iff in E
         end.
  split; [assumption | split; [split; assumption | split]].
  - exists (Z.to_nat (Qfloor (maxPositions config))).
    assert (Hfloor : (1 <= Qfloor (maxPositions config))%Z).
    { change 1%Z with (Qfloor 1). now apply Qfloor_resp_le. }
    split; [lia |]. rewrite Z2Nat.id by lia. assumption.
  - exact Haccepts.
Qed.

End Forms.

(** * Where the prices of a trade come from *)

Section TradeProvenance.

Context {env : Environment}.
Variable strategy : Strategy.

Local Abbreviation config := (simulationConfig strategy).
Local Abbreviation series := (historicalDataBySymbol strategy).

Lemma closeTrade_at_bar (p : Trade) (bar : PriceData) :
  entersAtBar strategy p ->
  In bar (series (symbol p)) ->
  entersAtBar strategy (closeTrade p (date bar) (close bar))
  /\ exitsAtBar strategy (closeTrade p (date bar) (close bar)).
Proof.
  intros Henter Hbar. split; [exact Henter |].
  exists bar. cbn [closeTrade symbol exitDate exitPrice]. now repeat split.
Qed.

Lemma reachable_provenance (st : LoopState) :
  reachable strategy st ->
  Forall (entersAtBar strategy) (st_positions st)
  /\ Forall (fun t => entersAtBar strategy t /\ exitsAtBar strategy t)
       (st_allTrades st).
Proof.
  induction 1 as [| st st' d prev position _ IH Hin Hstep
                  | st st' d prev sym _ IH Hsym Hmax Hstep
                  | st d _ IH].
  - split; constructor.
  - destruct IH as [Hopen Hclosed].
    destruct (sellStep_cases _ _ _ _ _ _ Hstep) as [-> | (bar & Hbar & _ & ->)];
      [now split |].
    cbn [st_positions st_allTrades]. split.
    + apply Forall_forall. intros p Hp. apply filter_In in Hp.
      exact (proj1 (Forall_forall _ _) Hopen p (proj1 Hp)).
    + apply Forall_app. split; [exact Hclosed |]. constructor; [| constructor].
      apply findBar_In in Hbar. destruct Hbar as [Hbar <-].
      apply closeTrade_at_bar; [| exact Hbar].
      exact (proj1 (Forall_forall _ _) Hopen position Hin).
  - destruct IH as [Hopen Hclosed].
    destruct (buyStep_cases _ _ _ _ _ _ Hstep)
      as [-> | (bar & Hbar & _ & _ & _ & ->)]; [now split |].
    cbn [st_positions st_allTrades]. split; [| exact Hclosed].
    apply Forall_app. split; [exact Hopen |]. constructor; [| constructor].
    apply findBar_In in Hbar. destruct Hbar as [Hbar Hdate].
    split; [exact Hsym |]. exists bar. cbn [symbol entryDate entryPrice].
    now repeat split.
  - exact IH.
Qed.

Lemma forced_provenance (ps forced : list Trade) :
  Forall2 (forcedAtLastBar strategy) ps forced ->
  Forall (entersAtBar strategy) ps ->
  Forall (fun t => entersAtBar strategy t /\ exitsAtBar strategy t) forced.
Proof.
  induction 1 as [| p t ps forced (lastBar & Hlast & ->) _ IH]; intros Hps;
    [constructor |].
  inversion Hps as [| p' ps' Hp Hrest]; subst.
  constructor; [| now apply IH].
  apply closeTrade_at_bar; [exact Hp | now apply lastElement_In].
Qed.

(** X21. The engine never trades at a price of its own: every trade of a
    completed run is in a configured symbol, entered at the close of the bar
    of that symbol dated its entry date, and left at the close of a bar of
    that symbol dated its exit date. *)
Theorem trades_happen_at_closes_of_bars (res : SimulationResults) :
  runSimulation strategy = Ok res ->
  Forall (fun t => entersAtBar strategy t /\ exitsAtBar strategy t) (trades res).
Proof.
  intros Hres.
  destruct (runSimulation_Ok strategy res Hres) as (st & allTrades & Hloop & Hclose & ->).
  cbn [trades computeResults].
  assert (Hr : reachable strategy st)
    by (eapply dayLoop_reachable; [apply reach_initial | exact Hloop]).
  destruct (reachable_provenance st Hr) as [Hopen Hclosed].
  destruct (closeRemaining_forced strategy _ _ _ Hclose) as (forced & -> & Hforced).
  apply Forall_app. split; [exact Hclosed |].
  now apply (forced_provenance (st_positions st)).
Qed.

End TradeProvenance.


(** * The further properties on the sample inputs *)

Lemma sampleStrategy_loop :
  dayLoop (env := sampleEnvironment) sampleStrategy None
    (allDates (env := sampleEnvironment) sampleStrategy)
    (initialState sampleStrategy) = Ok sampleFinalState.
Proof. vm_compute. reflexivity. Qed.

Lemma sampleFinalState_reachable :
  reachable (env := sampleEnvironment) sampleStrategy sampleFinalState.
Proof.
  apply (dayLoop_reachable (env := sampleEnvironment) sampleStrategy
           (allDates (env := sampleEnvironment) sampleStrategy) None
           (initialState sampleStrategy) sampleFinalState).
  - apply reach_initial.
  - exact sampleStrategy_loop.
Qed.

Lemma sampleDraws_unitInterval (symbol : string) : unitInterval (sampleDraws symbol).
Proof.
  intros n. unfold sampleDraws. destruct (Nat.even n); split; lra.
Qed.

(** The three equity points of the sample run are dated by its three trading
    days. *)
Lemma one_point_per_trading_day_witness :
  runSimulation (env := sampleEnvironment) sampleStrategy = Ok sampleResults
  /\ map point_date (equityCurve sampleResults)
     = allDates (env := sampleEnvironment) sampleStrategy
  /\ map drawdown_date (drawdowns sampleResults)
     = allDates (env := sampleEnvironment) sampleStrategy.
Proof.
  split; [exact sampleStrategy_runs |].
  apply (one_point_per_trading_day (env := sampleEnvironment) sampleStrategy
           sampleResults sampleStrategy_runs).
Defined.


(** The run that never sells: its only trade exits at ACME's last bar. *)
Lemma without_sell_rules_all_exits_at_last_bar_witness :
  noConditions (sellConfig (holdStrategy 100 ["ACME"%string] 100)) = true
  /\ exists res,
       runSimulation (env := sampleEnvironment)
         (holdStrategy 100 ["ACME"%string] 100) = Ok res
       /\ List.length (trades res) = 1%nat
       /\ forall t, In t (trades res) ->
          exists lastBar,
            lastElement (historicalDataBySymbol (env := sampleEnvironment)
                           (holdStrategy 100 ["ACME"%string] 100) (symbol t))
            = Some lastBar
            /\ exitDate t = Some (date lastBar)
            /\ exitPrice t = Some (close lastBar)
            /\ pnl t = Some ((close lastBar - entryPrice t) * inject_Z (quantity t)).
Proof.
  split; [reflexivity |].
  eexists. split; [vm_compute; reflexivity | split; [reflexivity |]].
  apply (without_sell_rules_all_exits_at_last_bar (env := sampleEnvironment)
           (holdStrategy 100 ["ACME"%string] 100) _ eq_refl).
  vm_compute. reflexivity.
Defined.

(** The trade sold in the sample run entered on the first day and left on
    the second. *)
Lemma sold_trades_exit_after_entry_witness :
  dayLoop (env := sampleEnvironment) sampleStrategy None
    (allDates (env := sampleEnvironment) sampleStrategy)
    (initialState sampleStrategy) = Ok sampleFinalState
  /\ List.length (st_allTrades sampleFinalState) = 1%nat
  /\ Forall exitsAfterEntry (st_allTrades sampleFinalState).
Proof.
  split; [exact sampleStrategy_loop | split; [reflexivity |]].
  apply (sold_trades_exit_after_entry (env := sampleEnvironment) sampleStrategy
           sampleFinalState sampleStrategy_loop).
Defined.

(** The win rate of the sample run. *)
Lemma winRate_is_a_percentage_witness :
  runSimulation (env := sampleEnvironment) sampleStrategy = Ok sampleResults
  /\ 0 <= winRate sampleResults /\ winRate sampleResults <= 100.
Proof.
  split; [exact sampleStrategy_runs |].
  pose proof (winRate_is_a_percentage (env := sampleEnvironment) sampleStrategy
                sampleResults sampleStrategy_runs) as H.
  split; [exact (proj1 H) | exact (proj1 (proj2 H))].
Defined.


(** The position left open by the day loop of the sample run. *)
Lemma positions_sized_by_price_alone_witness :
  0 <= initialCapital (simulationConfig sampleStrategy)
  /\ 0 <= positionSize (simulationConfig sampleStrategy)
  /\ List.length (st_positions sampleFinalState) = 1%nat
  /\ forall p, In p (st_positions sampleFinalState) -> (1 <= quantity p)%Z.
Proof.
  assert (Hcap : 0 <= initialCapital (simulationConfig sampleStrategy))
    by (vm_compute; discriminate).
  assert (Hsize : 0 <= positionSize (simulationConfig sampleStrategy))
    by (vm_compute; discriminate).
  split; [exact Hcap | split; [exact Hsize | split; [reflexivity |]]].
  apply (proj1 (positions_sized_by_price_alone (env := sampleEnvironment)
                  sampleStrategy sampleFinalState Hcap Hsize
                  sampleStrategy_pricesPositive sampleFinalState_reachable)).
Defined.

(** Three AAPL bars from Friday 2024-01-05 to Tuesday 2024-01-09. *)
Lemma generatePriceData_bars_consistent_witness :
  unitInterval (sampleDraws "AAPL")
  /\ List.length (generatePriceData (dates := gregorian) (sampleDraws "AAPL")
                    "AAPL" "2024-01-05" "2024-01-09") = 3%nat
  /\ Forall consistentBar
       (generatePriceData (dates := gregorian) (sampleDraws "AAPL")
          "AAPL" "2024-01-05" "2024-01-09").
Proof.
  split; [apply sampleDraws_unitInterval | split; [vm_compute; reflexivity |]].
  apply (generatePriceData_bars_consistent (dates := gregorian)
           (sampleDraws "AAPL") "AAPL" "2024-01-05" "2024-01-09"
           (sampleDraws_unitInterval "AAPL")).
Defined.

Lemma generatePriceData_volume_range_witness :
  unitInterval (sampleDraws "MSFT")
  /\ Forall volumeInRange
       (generatePriceData (dates := gregorian) (sampleDraws "MSFT")
          "MSFT" "2024-01-05" "2024-01-09").
Proof.
  split; [apply sampleDraws_unitInterval |].
  apply (generatePriceData_volume_range (dates := gregorian)
           (sampleDraws "MSFT") "MSFT" "2024-01-05" "2024-01-09"
           (sampleDraws_unitInterval "MSFT")).
Defined.

(** The Gregorian ['yyyy-MM-dd'] strings from 2024-01-05 to 2024-01-09 are
    in the order of their days. *)
Lemma gregorian_ascending_sample (a b : Z) :
  (@parseDate gregorian "2024-01-05" <= a)%Z ->
  (a < b)%Z ->
  (b <= @parseDate gregorian "2024-01-09")%Z ->
  String_as_OT.lt (@formatDate gregorian a)
    (@formatDate gregorian b).
Proof.
  intros Ha Hab Hb.
  assert (Hfirst : @parseDate gregorian "2024-01-05" = 19727%Z)
    by (vm_compute; reflexivity).
  assert (Hlast : @parseDate gregorian "2024-01-09" = 19731%Z)
    by (vm_compute; reflexivity).
  rewrite Hfirst in Ha. rewrite Hlast in Hb.
  assert (Ha' : (a = 19727 \/ a = 19728 \/ a = 19729 \/ a = 19730)%Z) by lia.
  assert (Hb' : (b = 19728 \/ b = 19729 \/ b = 19730 \/ b = 19731)%Z) by lia.
  destruct Ha' as [-> | [-> | [-> | ->]]];
    destruct Hb' as [-> | [-> | [-> | ->]]];
    try lia; vm_compute; reflexivity.
Qed.

Lemma generatePriceData_dates_ascending_witness :
  ascendingDates
    (map date (generatePriceData (dates := gregorian) (sampleDraws "AAPL")
                 "AAPL" "2024-01-05" "2024-01-09")) = true.
Proof.
  apply (generatePriceData_dates_ascending (dates := gregorian)
           (sampleDraws "AAPL") "AAPL" "2024-01-05" "2024-01-09"
           gregorian_ascending_sample).
Defined.

(** MSFT has a bar on Monday 2024-01-08, a trading day of [mockStrategy]. *)
Lemma mock_provider_leaves_no_gap_witness :
  In "MSFT"%string (symbols (simulationConfig mockStrategy))
  /\ In "2024-01-08"%string
       (allDates (env := mockEnvironment (dates := gregorian) sampleEnvironment
                           sampleDraws) mockStrategy)
  /\ exists bar,
       findBar
         (historicalDataBySymbol
            (env := mockEnvironment (dates := gregorian) sampleEnvironment
                      sampleDraws) mockStrategy "MSFT") "2024-01-08" = Some bar
       /\ date bar = "2024-01-08"%string.
Proof.
  assert (Hsym : In "MSFT"%string (symbols (simulationConfig mockStrategy)))
    by (right; left; reflexivity).
  assert (Hday : In "2024-01-08"%string
                   (allDates (env := mockEnvironment (dates := gregorian)
                                       sampleEnvironment sampleDraws)
                      mockStrategy))
    by (vm_compute; right; left; reflexivity).
  split; [exact Hsym | split; [exact Hday |]].
  apply (mock_provider_leaves_no_gap (dates := gregorian) sampleEnvironment
           sampleDraws mockStrategy "MSFT" "2024-01-08" Hsym Hday).
Defined.

(** Entered at 50 with a take profit of 10 percent: the rule fires at a
    close of 60, hence at 61, and does not fire at 50. *)
Lemma exit_rules_are_thresholds_on_the_close_witness :
  0 < entryPrice sampleTrade
  /\ sellConditionMet (env := sampleEnvironment) (sampleBar "2024-01-02" 60) None
       sampleTrade (takeProfit 10) = Ok true
  /\ sellConditionMet (env := sampleEnvironment) (sampleBar "2024-01-03" 61) None
       sampleTrade (takeProfit 10) = Ok true
  /\ sellConditionMet (env := sampleEnvironment) (sampleBar "2024-01-02" 50) None
       sampleTrade (takeProfit 10) = Ok false.
Proof.
  assert (Hentry : 0 < entryPrice sampleTrade) by (vm_compute; reflexivity).
  assert (Hfires : sellConditionMet (env := sampleEnvironment)
                     (sampleBar "2024-01-02" 60) None sampleTrade (takeProfit 10)
                   = Ok true) by (vm_compute; reflexivity).
  destruct (proj1 (exit_rules_are_thresholds_on_the_close (env := sampleEnvironment)
                     sampleTrade
                     [("type"%string, JStr "takeProfit"); ("value"%string, JNum 10)]
                     10 Hentry eq_refl) eq_refl) as [Hup Hbelow].
  split; [exact Hentry | split; [exact Hfires | split]].
  - apply (Hup (sampleBar "2024-01-02" 60) (sampleBar "2024-01-03" 61) None None);
      [vm_compute; discriminate | exact Hfires].
  - apply (Hbelow ltac:(reflexivity) (sampleBar "2024-01-02" 50) None).
    vm_compute. discriminate.
Defined.

(** The configuration of [mockStrategy] passes both forms. *)
Lemma createForm_rules_out_invalid_configurations_witness :
  createFormAccepts "Momentum" (simulationConfig mockStrategy) = true
  /\ violatesInvariants (simulationConfig mockStrategy) = false.
Proof.
  split; [reflexivity |].
  exact (proj1 (createForm_rules_out_invalid_configurations "Momentum"
                  (simulationConfig mockStrategy) eq_refl)).
Defined.

Lemma editForm_accepts_whole_positions_any_symbols_witness :
  editFormAccepts "Momentum" (simulationConfig mockStrategy) = true
  /\ exists n : nat,
       (1 <= n)%nat
       /\ maxPositions (simulationConfig mockStrategy) == inject_Z (Z.of_nat n).
Proof.
  split; [reflexivity |].
  exact (proj1 (proj2 (proj2 (editForm_accepts_whole_positions_any_symbols
                                "Momentum" (simulationConfig mockStrategy)
                                eq_refl)))).
Defined.

(** Both trades of the sample run are ACME trades at closes of ACME bars. *)
Lemma trades_happen_at_closes_of_bars_witness :
  runSimulation (env := sampleEnvironment) sampleStrategy = Ok sampleResults
  /\ List.length (trades sampleResults) = 2%nat
  /\ Forall (fun t => entersAtBar (env := sampleEnvironment) sampleStrategy t
                      /\ exitsAtBar (env := sampleEnvironment) sampleStrategy t)
       (trades sampleResults).
Proof.
  split; [exact sampleStrategy_runs | split; [reflexivity |]].
  apply (trades_happen_at_closes_of_bars (env := sampleEnvironment) sampleStrategy
           sampleResults sampleStrategy_runs).
Defined.


(** The trading days of the sample strategy, whose only symbol is ACME. *)
Lemma allDates_sorted_union_witness :
  ~ In "__proto__"%string (symbols (simulationConfig sampleStrategy))
  /\ allDates (env := sampleEnvironment) sampleStrategy
     = ["2024-01-01"%string; "2024-01-02"%string; "2024-01-03"%string]
  /\ NoDup (allDates (env := sampleEnvironment) sampleStrategy).
Proof.
  assert (Hnames : ~ In "__proto__"%string (symbols (simulationConfig sampleStrategy)))
    by (intros [H | []]; discriminate).
  split; [exact Hnames | split; [vm_compute; reflexivity |]].
  apply (proj2 (proj2 (allDates_sorted_union (env := sampleEnvironment)
                         sampleStrategy Hnames))).
Defined.
